(** * fastapi_middleware_logger: a verified model of the logging middleware

    Shallow embedding of [fastapi_middleware_logger.py].  Python values are
    modelled by the data the code handles: [str] as a list of Unicode code
    points, [bytes] as a list of bytes, [dict] as an insertion-ordered
    association list, the logging registry as a finite map.  Code that
    raises, calls user callbacks or writes to the logging sink lives in a
    small state-and-exception monad. *)

From Stdlib Require Import ZArith NArith List Ascii String Lia Bool.
From Stdlib.Strings Require Import Byte.
From Stdlib Require Import DecimalString.
From stdpp Require Import base option list strings gmap.

Import ListNotations.
Local Open Scope N_scope.

(** ** Python [str] and [bytes] *)

(** A Python [str] is a sequence of code points. *)
Definition str := list N.

(** A Python [bytes] object. *)
Definition bytes := list byte.

(** A source-code literal made of ASCII characters. *)
Definition lit (s : string) : str :=
  List.map N_of_ascii (list_ascii_of_string s).

(** The [bytes] literal [b"..."] for ASCII contents. *)
Definition blit (s : string) : bytes := list_byte_of_string s.

Definition octets (b : bytes) : list N := List.map Byte.to_N b.

(** ** The UTF-8 codec behind [bytes.decode('utf-8')] *)

Module Utf8.

Definition between (lo hi b : N) : bool := (lo <=? b) && (b <=? hi).

Definition continuation (b : N) : bool := between 128 191 b.

(** Second byte of a three-byte form: [E0] excludes overlong forms,
    [ED] excludes the surrogates. *)
Definition second_of_3 (b0 b1 : N) : bool :=
  if b0 =? 224 then between 160 191 b1
  else if b0 =? 237 then between 128 159 b1
  else continuation b1.

(** Second byte of a four-byte form: [F0] excludes overlong forms,
    [F4] stops at U+10FFFF. *)
Definition second_of_4 (b0 b1 : N) : bool :=
  if b0 =? 240 then between 144 191 b1
  else if b0 =? 244 then between 128 143 b1
  else continuation b1.

(** The strict decoder: [None] stands for [UnicodeDecodeError]. *)
Fixpoint decode (bs : list N) : option str :=
  match bs with
  | [] => Some []
  | b0 :: r0 =>
    if b0 <? 128 then cons b0 <$> decode r0
    else if between 194 223 b0 then
      match r0 with
      | b1 :: r1 =>
        if continuation b1
        then cons ((b0 - 192) * 64 + (b1 - 128)) <$> decode r1
        else None
      | _ => None
      end
    else if between 224 239 b0 then
      match r0 with
      | b1 :: b2 :: r2 =>
        if second_of_3 b0 b1 && continuation b2
        then cons ((b0 - 224) * 4096 + (b1 - 128) * 64 + (b2 - 128))
               <$> decode r2
        else None
      | _ => None
      end
    else if between 240 244 b0 then
      match r0 with
      | b1 :: b2 :: b3 :: r3 =>
        if second_of_4 b0 b1 && continuation b2 && continuation b3
        then cons ((b0 - 240) * 262144 + (b1 - 128) * 4096
                   + (b2 - 128) * 64 + (b3 - 128))
               <$> decode r3
        else None
      | _ => None
      end
    else None
  end.

(** Unicode scalar values: every code point but the surrogates. *)
Definition scalar (c : N) : Prop :=
  c < 55296 \/ (57343 < c /\ c <= 1114111).

(** The encoding of one scalar value. *)
Definition encode_cp (c : N) : list N :=
  if c <? 128 then [c]
  else if c <? 2048 then [192 + c / 64; 128 + c mod 64]
  else if c <? 65536 then
    [224 + c / 4096; 128 + (c / 64) mod 64; 128 + c mod 64]
  else
    [240 + c / 262144; 128 + (c / 4096) mod 64;
     128 + (c / 64) mod 64; 128 + c mod 64].

Definition encode (s : str) : list N := flat_map encode_cp s.

(** [b] is the UTF-8 encoding of the text [s]. *)
Definition encodes (s : str) (b : bytes) : Prop :=
  Forall scalar s /\ octets b = encode s.

(** [b] is valid UTF-8. *)
Definition valid (b : bytes) : Prop := exists s, encodes s b.

End Utf8.

(** ** Values handed to the logger callbacks *)

(** A Python [dict]: keys are distinct and kept in insertion order. *)
Definition pydict (V : Type) := list (str * V).

(** [d[k] = v] *)
Fixpoint dict_set {V} (k : str) (v : V) (d : pydict V) : pydict V :=
  match d with
  | [] => [(k, v)]
  | (k', v') :: d' =>
    if decide (k = k') then (k', v) :: d' else (k', v') :: dict_set k v d'
  end.

(** [dict(m)] for a [Mapping]: [for k in m.keys(): d[k] = m[k]].  A key
    that [m] cannot look up would be a [KeyError]; the mappings below look
    up every key they list. *)
Definition dict_of_mapping {V} (keys : list str) (getitem : str -> option V)
  : pydict V :=
  fold_left (fun d k => match getitem k with
                        | Some v => dict_set k v d
                        | None => d
                        end) keys [].

(** The heterogeneous values of a Log Event. *)
Inductive value :=
| VNone
| VInt (z : Z)
| VStr (s : str)
| VBytes (b : bytes)
| VDict (d : pydict str).

(** [**kwargs]: field name to value, in the order the call site lists them. *)
Definition kwargs := list (str * value).

(** *** Formatting *)

Definition dquote : str := [34].

Definition hex_digit (n : N) : N :=
  if n <? 10 then 48 + n else 87 + n.

(** One byte inside [repr(bytes)], for the quote character [q]. *)
Definition repr_byte (q c : N) : str :=
  if (c =? q) || (c =? 92) then [92; c]
  else if c =? 9 then lit "\t"
  else if c =? 10 then lit "\n"
  else if c =? 13 then lit "\r"
  else if (c <? 32) || (127 <=? c) then
    lit "\x" ++ [hex_digit (c / 16); hex_digit (c mod 16)]
  else [c].

(** [repr(b)]: single quotes unless [b] holds a single quote and no
    double quote. *)
Definition bytes_repr (b : bytes) : str :=
  let cs := octets b in
  let q := if existsb (N.eqb 39) cs && negb (existsb (N.eqb 34) cs)
           then 34 else 39 in
  lit "b" ++ [q] ++ flat_map (repr_byte q) cs ++ [q].

(** [str(n)] for an [int]. *)
Definition int_str (z : Z) : str := lit (NilEmpty.string_of_int (Z.to_int z)).

(** [v[:n]] *)
Definition slice_to {A} (n : nat) (v : list A) : list A := firstn n v.

(** ** Exceptions, results and the effect monad *)

(** An instance of [Exception]: what [except Exception] catches.
    [exc_message] is what [str(exc)] returns; [exc_id] tells instances
    apart. *)
Record exn := { exc_type : string; exc_message : str; exc_id : nat }.

Definition str_exc (e : exn) : str := exc_message e.

Inductive Result (A : Type) :=
| Ok (a : A)
| Raise (e : exn).
Arguments Ok {A} a.
Arguments Raise {A} e.

(** Computations over a state [S] that return or raise. *)
Definition ST (S A : Type) := S -> Result A * S.

Definition ret {S A} (a : A) : ST S A := fun s => (Ok a, s).

Definition raise {S A} (e : exn) : ST S A := fun s => (Raise e, s).

Definition bind {S A B} (c : ST S A) (k : A -> ST S B) : ST S B :=
  fun s => match c s with
           | (Ok a, s') => k a s'
           | (Raise e, s') => (Raise e, s')
           end.

(** [try: body / except Exception as exc: handler(exc)] *)
Definition try_except {S A} (body : ST S A) (handler : exn -> ST S A)
  : ST S A :=
  fun s => match body s with
           | (Ok a, s') => (Ok a, s')
           | (Raise e, s') => handler e s'
           end.

Notation "x <- c ;; k" := (bind c (fun x => k))
  (at level 62, c at next level, right associativity).
Notation "c ;;; k" := (bind c (fun _ => k))
  (at level 62, right associativity).

(** [for x in xs: body(x)] *)
Fixpoint for_each {S A} (xs : list A) (body : A -> ST S unit) : ST S unit :=
  match xs with
  | [] => ret tt
  | x :: xs' => body x ;;; for_each xs' body
  end.

(** ** The logging module *)

Inductive Level := NOTSET | DEBUG | INFO | WARNING | ERROR | CRITICAL.

(** The numeric constants [logging.DEBUG], ..., [logging.CRITICAL]. *)
Definition level_value (l : Level) : Z :=
  match l with
  | NOTSET => 0 | DEBUG => 10 | INFO => 20
  | WARNING => 30 | ERROR => 40 | CRITICAL => 50
  end%Z.

(** One call of [logging.debug], [logging.info] or [logging.error]. *)
Definition LogRecord : Type := Level * str.

(** The process-wide logging state: the records handed to the sink, and
    the threshold of every named logger created so far. *)
Record Env := {
  records : list LogRecord;
  levels : gmap string Level
}.

(** Code that runs against the logging state: handlers and loggers. *)
Definition Callback (A : Type) := ST Env A.

Definition logging_log (l : Level) (msg : str) : Callback unit :=
  fun e => (Ok tt, {| records := records e ++ [(l, msg)]; levels := levels e |}).

Definition logging_debug := logging_log DEBUG.
Definition logging_info := logging_log INFO.
Definition logging_error := logging_log ERROR.

(** [logging.getLogger(name)]: the logger of that name, created with no
    threshold of its own when it does not exist yet. *)
Definition getLogger (name : string) : Callback string :=
  fun e => (Ok name,
            {| records := records e;
               levels := match levels e !! name with
                         | Some _ => levels e
                         | None => <[name := NOTSET]> (levels e)
                         end |}).

(** [logger.setLevel(level)] *)
Definition setLevel (logger : string) (level : Level) : Callback unit :=
  fun e => (Ok tt, {| records := records e;
                      levels := <[logger := level]> (levels e) |}).

(** ** [parse_body] *)

(** [content.decode('utf-8')] *)
Definition bytes_decode {S} (content : bytes) : ST S str :=
  match Utf8.decode (octets content) with
  | Some s => ret s
  | None => raise {| exc_type := "UnicodeDecodeError";
                     exc_message := lit "invalid utf-8"; exc_id := 0 |}
  end.

Definition parse_body {S} (content : bytes) : ST S value :=
  try_except (s <- bytes_decode content ;; ret (VStr s))
             (fun _ => ret (VBytes content)).

(** ** The default loggers *)

Definition default_logger (kw : kwargs) : Callback unit :=
  for_each kw (fun '(k, v) =>
    match v with
    | VDict d =>
      for_each d (fun '(kk, vv) =>
        logging_info (k ++ lit ": " ++ kk ++ lit " = " ++ vv))
    | VBytes b =>
      logging_debug (k ++ lit ": " ++ dquote
                       ++ bytes_repr (slice_to 20 b) ++ dquote)
    | VStr s => logging_debug (k ++ lit ": " ++ s)
    | VInt z => logging_debug (k ++ lit ": " ++ int_str z)
    | VNone => logging_debug (k ++ lit ": " ++ lit "None")
    end).

Definition default_error_logger (kw : kwargs) : Callback unit :=
  for_each kw (fun '(k, v) =>
    match v with
    | VDict d =>
      for_each d (fun '(kk, vv) =>
        logging_error (k ++ lit ": " ++ kk ++ lit " = " ++ vv))
    | VBytes b =>
      logging_error (k ++ lit ": " ++ dquote
                       ++ bytes_repr (slice_to 20 b) ++ dquote)
    | VStr s => logging_error (k ++ lit ": " ++ s)
    | VInt z => logging_error (k ++ lit ": " ++ int_str z)
    | VNone => logging_error (k ++ lit ": " ++ lit "None")
    end).

(** ** Requests *)

(** An ASGI [receive] message of an HTTP request. *)
Inductive Message :=
| http_request (body : bytes) (more_body : bool)
| http_disconnect.

(** An awaitable [receive] callable.  [channel q] is the server's channel:
    each call delivers the next queued message, and [http.disconnect] once
    the queue is empty.  [replay body] is the closure [set_body] builds:
    every call returns the message with type [http.request] and that
    body, which carries no [more_body]. *)
Inductive Receive :=
| channel (queued : list Message)
| replay (body : bytes).

Definition receive (rc : Receive) : Message * Receive :=
  match rc with
  | channel [] => (http_disconnect, channel [])
  | channel (m :: q) => (m, channel q)
  | replay body => (http_request body false, replay body)
  end.

Definition ClientDisconnect : exn :=
  {| exc_type := "ClientDisconnect"; exc_message := []; exc_id := 0 |}.

(** The framework's loop over the server channel: collect the bodies of
    [http.request] messages up to the first one without [more_body]. *)
Fixpoint stream_queue (q : list Message) (acc : bytes)
  : Result bytes * Receive :=
  match q with
  | [] => (Raise ClientDisconnect, channel [])
  | http_disconnect :: q' => (Raise ClientDisconnect, channel q')
  | http_request b more :: q' =>
    if more then stream_queue q' (acc ++ b) else (Ok (acc ++ b), channel q')
  end.

(** The same loop over any [receive] callable. *)
Definition stream (rc : Receive) (acc : bytes) : Result bytes * Receive :=
  match rc with
  | channel q => stream_queue q acc
  | replay body => (Ok (acc ++ body), replay body)
  end.

(** Starlette's multi-valued [Headers]: the raw list of name/value pairs. *)
Definition Headers := list (str * str).

Definition Headers_keys (h : Headers) : list str := List.map fst h.

(** [h[key]]: the value of the first pair of that name. *)
Fixpoint Headers_getitem (h : Headers) (key : str) : option str :=
  match h with
  | [] => None
  | (k, v) :: h' => if decide (k = key) then Some v else Headers_getitem h' key
  end.

(** [dict(h)] for a [Headers] object. *)
Definition dict_of_headers (h : Headers) : pydict str :=
  dict_of_mapping (Headers_keys h) (Headers_getitem h).

(** Starlette's [QueryParams], by the list of pairs of the query string. *)
Definition QueryParams := list (str * str).

(** [dict(q)] for a [QueryParams] object, whose lookup table is
    [{k: v for k, v in pairs}]. *)
Definition dict_of_query_params (q : QueryParams) : pydict str :=
  fold_left (fun d '(k, v) => dict_set k v d) q [].

Module Request.

Record t := {
  method : str;
  url : str;                  (** [str(request.url)] *)
  headers : Headers;
  query_params : QueryParams;
  _receive : Receive;
  _body : option bytes        (** the cache filled by [body()] *)
}.

(** [await request.body()] *)
Definition body (r : t) : Result bytes * t :=
  match _body r with
  | Some b => (Ok b, r)
  | None =>
    match stream (_receive r) [] with
    | (Ok b, rc) =>
      (Ok b, {| method := method r; url := url r; headers := headers r;
                query_params := query_params r;
                _receive := rc; _body := Some b |})
    | (Raise e, rc) =>
      (Raise e, {| method := method r; url := url r; headers := headers r;
                   query_params := query_params r;
                   _receive := rc; _body := None |})
    end
  end.

(** A request object another consumer builds over the same [receive]. *)
Definition rewrap (r : t) : t :=
  {| method := method r; url := url r; headers := headers r;
     query_params := query_params r;
     _receive := _receive r; _body := None |}.

(** The messages that deliver a body in chunks: all but the last one
    announce [more_body]. *)
Fixpoint body_messages (chunks : list bytes) : list Message :=
  match chunks with
  | [] => [http_request [] false]
  | [c] => [http_request c false]
  | c :: cs => http_request c true :: body_messages cs
  end.

(** A request as the server delivers it, its body split in chunks. *)
Definition incoming (m u : str) (h : Headers) (q : QueryParams)
           (chunks : list bytes) : t :=
  {| method := m; url := u; headers := h; query_params := q;
     _receive := channel (body_messages chunks);
     _body := None |}.

End Request.

(** [set_body]: [request._receive = receive], with [receive] the closure
    over [body]. *)
Definition set_body (request : Request.t) (body : bytes) : Request.t :=
  {| Request.method := Request.method request;
     Request.url := Request.url request;
     Request.headers := Request.headers request;
     Request.query_params := Request.query_params request;
     Request._receive := replay body;
     Request._body := Request._body request |}.

(** ** Responses *)

(** An asynchronous iterator over body chunks: it yields [chunks] and then
    either stops or raises. *)
Record AsyncIter := { chunks : list bytes; failure : option exn }.

(** The response [call_next] returns. *)
Module Upstream.
Record t := {
  status_code : Z;
  headers : Headers;
  media_type : option str;
  body_iterator : AsyncIter
}.
End Upstream.

(** A logger callback. *)
Definition Logger := kwargs -> Callback unit.

(** [BackgroundTask(func, **kwargs)] *)
Record BackgroundTask := { func : Logger; task_kwargs : kwargs }.

(** The arguments of [Response(...)]. *)
Module Response.
Record t := {
  content : bytes;
  status_code : Z;
  headers : pydict str;
  media_type : option str;
  background : option BackgroundTask
}.
End Response.

(** ** Executions *)

(** What an execution does to the world outside the logging state. *)
Inductive Event :=
| HandlerCalled (request : Request.t)
| ErrorLoggerCalled (kw : kwargs)
| SentStart (status : Z) (headers : pydict str)
| SentBody (body : bytes)
| BackgroundRun (kw : kwargs).

Record World := { env : Env; history : list Event }.

(** The middleware's own computations. *)
Definition M (A : Type) := ST World A.

(** Call user code, and note the call. *)
Definition invoke {A} (ev : Event) (f : Callback A) : M A :=
  fun w => let (r, e) := f (env w) in
           (r, {| env := e; history := history w ++ [ev] |}).

(** Note an action of the host. *)
Definition emit (ev : Event) : M unit :=
  fun w => (Ok tt, {| env := env w; history := history w ++ [ev] |}).

(** Run a computation on an object's own state. *)
Definition on_object {O A} (f : O -> Result A * O) (o : O) : M (A * O) :=
  fun w => match f o with
           | (Ok a, o') => (Ok (a, o'), w)
           | (Raise e, _) => (Raise e, w)
           end.

(** [response_body = b""; async for chunk in it: response_body += chunk] *)
Definition drain {S} (it : AsyncIter) : ST S bytes :=
  let response_body := fold_left (fun acc chunk => acc ++ chunk) (chunks it) [] in
  match failure it with
  | None => ret response_body
  | Some e => raise e
  end.

(** ** [disable_loggers] *)

Definition disable_loggers : Callback unit :=
  uvicorn_error <- getLogger "uvicorn.error" ;;
  setLevel uvicorn_error CRITICAL ;;;
  uvicorn_access <- getLogger "uvicorn.access" ;;
  setLevel uvicorn_access CRITICAL ;;;
  uvicorn_access <- getLogger "uvicorn" ;;
  setLevel uvicorn_access CRITICAL ;;;
  fastapi_logger <- getLogger "fastapi" ;;
  setLevel fastapi_logger CRITICAL.

(** ** The middleware *)

Section Middleware.

Variable custom_logger : Logger.
Variable custom_error_logger : Logger.

(** The fields taken from the request, lines 94-98 and 110-114. *)
Definition request_fields (request : Request.t) (request_body : value)
  : kwargs :=
  [ (lit "request_body", request_body);
    (lit "request_headers", VDict (dict_of_headers (Request.headers request)));
    (lit "request_query_params",
       VDict (dict_of_query_params (Request.query_params request)));
    (lit "request_method", VStr (Request.method request));
    (lit "request_url", VStr (Request.url request)) ].

Definition option_value (o : option str) : value :=
  match o with Some s => VStr s | None => VNone end.

Definition middleware_logger
           (request : Request.t)
           (call_next : Request.t -> Callback Upstream.t)
  : M Response.t :=
  read <- on_object Request.body request ;;
  let '(request_body, request) := read in
  let request := set_body request request_body in
  response <-
    try_except
      (invoke (HandlerCalled request) (call_next request))
      (fun exc =>
         parsed <- parse_body request_body ;;
         let kw := request_fields request parsed
                   ++ [(lit "error_message", VStr (str_exc exc))] in
         invoke (ErrorLoggerCalled kw) (custom_error_logger kw) ;;;
         raise exc) ;;
  response_body <- drain (Upstream.body_iterator response) ;;
  parsed <- parse_body request_body ;;
  parsed_response <- parse_body response_body ;;
  let task :=
    {| func := custom_logger;
       task_kwargs :=
         request_fields request parsed
         ++ [ (lit "response_body", parsed_response);
              (lit "response_headers",
                 VDict (dict_of_headers (Upstream.headers response)));
              (lit "response_media_type",
                 option_value (Upstream.media_type response));
              (lit "response_status_code",
                 VInt (Upstream.status_code response)) ] |} in
  ret {| Response.content := response_body;
         Response.status_code := Upstream.status_code response;
         Response.headers := dict_of_headers (Upstream.headers response);
         Response.media_type := Upstream.media_type response;
         Response.background := Some task |}.

End Middleware.

(** ** Registration *)





(** ** The host's side *)

(** How the host transmits a response ([Response.__call__]): the start
    message, the body message, and only then the background task. *)
Definition transmit (response : Response.t) : M unit :=
  emit (SentStart (Response.status_code response) (Response.headers response)) ;;;
  emit (SentBody (Response.content response)) ;;;
  match Response.background response with
  | Some task =>
    invoke (BackgroundRun (task_kwargs task)) (func task (task_kwargs task))
  | None => ret tt
  end.

(** One request through the middleware and out to the client. *)
Definition serve (custom_logger custom_error_logger : Logger)
           (request : Request.t)
           (call_next : Request.t -> Callback Upstream.t) : M unit :=
  response <- middleware_logger custom_logger custom_error_logger
                                request call_next ;;
  transmit response.

(** ** Observations on executions *)

(** The value [parse_body] computes. *)
Definition decoded (content : bytes) : value :=
  match Utf8.decode (octets content) with
  | Some s => VStr s
  | None => VBytes content
  end.

(** [c] returns normally, hands exactly the records [ls] to the sink, and
    leaves the logger thresholds alone. *)
Definition emits (c : Callback unit) (ls : list LogRecord) : Prop :=
  forall e, c e = (Ok tt, {| records := records e ++ ls; levels := levels e |}).

(** The records [c] hands to an empty sink. *)
Definition produced (c : Callback unit) : list LogRecord :=
  records (snd (c {| records := []; levels := ∅ |})).

(** [n] calls in a row. *)
Fixpoint times (n : nat) (c : Callback unit) : Callback unit :=
  match n with
  | O => ret tt
  | S n' => c ;;; times n' c
  end.

(** The value a computation returned, if it returned. *)
Definition returned {A} (r : Result A) : option A :=
  match r with Ok a => Some a | Raise _ => None end.

(** A downstream consumer reading the request body once per entry of
    [how]: through the request object it holds ([false]) or through a new
    request object over the same [receive] ([true]). *)
Fixpoint read_again (how : list bool) (r : Request.t) : list (Result bytes) :=
  match how with
  | [] => []
  | fresh :: how' =>
    let (res, r') := Request.body (if fresh then Request.rewrap r else r) in
    res :: read_again how' r'
  end.

Definition is_error_logger_call (ev : Event) : bool :=
  match ev with ErrorLoggerCalled _ => true | _ => false end.

(** How often the error logger was invoked in a history. *)
Definition error_logger_calls (h : list Event) : nat :=
  length (List.filter is_error_logger_call h).

(** How many success-logger tasks a result carries. *)
Definition success_logger_scheduled (r : Result Response.t) : nat :=
  match r with
  | Ok response =>
    match Response.background response with Some _ => 1 | None => 0 end
  | Raise _ => 0
  end%nat.

(** The events an execution started in [w] added to the history. *)
Definition new_events {A} (w : World) (out : Result A * World) : list Event :=
  drop (length (history w)) (history (snd out)).

(** The Log Events of one run of the middleware. *)
Definition log_events (w : World) (out : Result Response.t * World) : nat :=
  (error_logger_calls (new_events w out) + success_logger_scheduled (fst out))%nat.

(** The thresholds after [disable_loggers]. *)
Definition silenced (m : gmap string Level) : gmap string Level :=
  <["fastapi" := CRITICAL]>
    (<["uvicorn" := CRITICAL]>
       (<["uvicorn.access" := CRITICAL]>
          (<["uvicorn.error" := CRITICAL]> m))).

(** The lines sections 4.2 and 4.3 of the design prescribe for one field,
    by the level for the entries of a mapping and the level for every
    other value. *)
Definition field_lines (lm lo : Level) (f : str * value) : list LogRecord :=
  let (k, v) := f in
  match v with
  | VDict d =>
    List.map (fun '(kk, vv) => (lm, k ++ lit ": " ++ kk ++ lit " = " ++ vv)) d
  | VBytes b =>
    [(lo, k ++ lit ": " ++ dquote ++ bytes_repr (slice_to 20 b) ++ dquote)]
  | VStr s => [(lo, k ++ lit ": " ++ s)]
  | VInt z => [(lo, k ++ lit ": " ++ int_str z)]
  | VNone => [(lo, k ++ lit ": " ++ lit "None")]
  end.

(** ** Sample inputs *)

Module Sample.

Definition env0 : Env := {| records := []; levels := ∅ |}.
Definition w0 : World := {| env := env0; history := [] |}.

(** [POST /items?a=1&a=2] with a 26-byte text body in two chunks. *)
Definition request : Request.t :=
  Request.incoming (lit "POST") (lit "http://testserver/items?a=1&a=2")
                   [(lit "host", lit "testserver")]
                   [(lit "a", lit "1"); (lit "a", lit "2")]
                   [blit "abcdefghijklm"; blit "nopqrstuvwxyz"].

Definition request_body : bytes := blit "abcdefghijklmnopqrstuvwxyz".

(** The request as the handler sees it. *)
Definition patched : Request.t :=
  set_body (snd (Request.body request)) request_body.

(** A 200 response with one header and a short text body. *)
Definition ok_response : Upstream.t :=
  {| Upstream.status_code := 200;
     Upstream.headers := [(lit "x-test", lit "v")];
     Upstream.media_type := None;
     Upstream.body_iterator :=
       {| chunks := [blit "{'ok':"; blit "true}"]; failure := None |} |}.

Definition handler_ok : Request.t -> Callback Upstream.t :=
  fun _ => ret ok_response.

(** A response that sets two cookies. *)
Definition cookie_response : Upstream.t :=
  {| Upstream.status_code := 200;
     Upstream.headers := [(lit "set-cookie", lit "a=1");
                          (lit "set-cookie", lit "b=2")];
     Upstream.media_type := None;
     Upstream.body_iterator := {| chunks := [blit "ok"]; failure := None |} |}.

Definition handler_cookies : Request.t -> Callback Upstream.t :=
  fun _ => ret cookie_response.

(** [raise ValueError("bad input")] *)
Definition bad_input : exn :=
  {| exc_type := "ValueError"; exc_message := lit "bad input"; exc_id := 1 |}.

Definition handler_raises : Request.t -> Callback Upstream.t :=
  fun _ => raise bad_input.

(** A streaming response whose generator fails after its first chunk. *)
Definition broken_pipe : exn :=
  {| exc_type := "RuntimeError"; exc_message := lit "stream failed";
     exc_id := 2 |}.

Definition broken_response : Upstream.t :=
  {| Upstream.status_code := 200;
     Upstream.headers := [(lit "x-test", lit "v")];
     Upstream.media_type := None;
     Upstream.body_iterator :=
       {| chunks := [blit "partial"]; failure := Some broken_pipe |} |}.

Definition handler_broken : Request.t -> Callback Upstream.t :=
  fun _ => ret broken_response.

End Sample.

(** ** Further observations *)

(** [d.get(k)]: the value stored under [k], if any. *)
Fixpoint dict_get {V} (d : pydict V) (k : str) : option V :=
  match d with
  | [] => None
  | (k', v) :: d' => if decide (k' = k) then Some v else dict_get d' k
  end.

(** [d.keys()] *)
Definition dict_keys {V} (d : pydict V) : list str := List.map fst d.

(** A printable ASCII character. *)
Definition printable (c : N) : Prop := 32 <= c <= 126.

(** Bytes below 128. *)
Definition ascii_only (b : bytes) : Prop := Forall (fun c => c < 128) (octets b).

Definition is_handler_call (ev : Event) : bool :=
  match ev with HandlerCalled _ => true | _ => false end.

(** How often the handler was invoked in a history. *)
Definition handler_calls (h : list Event) : nat :=
  length (List.filter is_handler_call h).

(** The four loggers [disable_loggers] names. *)
Definition disabled_names : list string :=
  ["uvicorn.error"; "uvicorn.access"; "uvicorn"; "fastapi"].

Module Edge.

(** A request whose body an outer consumer has already taken off the
    server's channel. *)
Definition drained_request : Request.t :=
  Request.rewrap (snd (Request.body Sample.request)).

(** [raise OSError("disk full")] inside a logger. *)
Definition disk_full : exn :=
  {| exc_type := "OSError"; exc_message := lit "disk full"; exc_id := 3 |}.

(** An error logger that writes one line and then fails. *)
Definition failing_logger : Logger :=
  fun _ => logging_error (lit "about to fail") ;;; raise disk_full.


(** A logging state in which some logger thresholds are already set. *)
Definition noisy_env : Env :=
  {| records := [(INFO, lit "started")];
     levels := <["uvicorn" := DEBUG]> (<["myapp" := WARNING]> ∅) |}.

End Edge.

(** * Properties *)

(** ** The UTF-8 codec *)

Module Utf8Facts.
Import Utf8.

Ltac split_div c d :=
  let H1 := fresh "Hdm" in
  let H2 := fresh "Hlt" in
  assert (H1 := N.div_mod c d ltac:(discriminate));
  assert (H2 := N.mod_lt c d ltac:(discriminate));
  generalize dependent (c mod d); generalize dependent (c / d); intros.

(** Decide every comparison in sight, discarding the impossible cases. *)
Ltac compare_all :=
  repeat match goal with
    | |- context [N.ltb ?a ?b] => destruct (N.ltb_spec a b); try lia
    | |- context [N.leb ?a ?b] => destruct (N.leb_spec a b); try lia
    | |- context [N.eqb ?a ?b] => destruct (N.eqb_spec a b); try lia
    | H : context [N.ltb ?a ?b] |- _ => destruct (N.ltb_spec a b); try lia
    | H : context [N.leb ?a ?b] |- _ => destruct (N.leb_spec a b); try lia
    | H : context [N.eqb ?a ?b] |- _ => destruct (N.eqb_spec a b); try lia
    end.

Lemma encode_cons c s : encode (c :: s) = encode_cp c ++ encode s.
Proof. reflexivity. Qed.

Lemma encode_cp_ascii c : c < 128 -> encode_cp c = [c].
Proof. intros H. unfold encode_cp. destruct (N.ltb_spec c 128); [reflexivity|lia]. Qed.

Lemma decode_encode_cp c r :
  scalar c -> decode (encode_cp c ++ r) = cons c <$> decode r.
Proof.
  intros Hc. unfold scalar in Hc. unfold encode_cp.
  destruct (N.ltb_spec c 128); [cbn [app decode]; compare_all; reflexivity|].
  destruct (N.ltb_spec c 2048).
  { cbn [app decode]. unfold between, continuation, between.
    split_div c 64. compare_all. cbn [andb]. do 2 f_equal. lia. }
  destruct (N.ltb_spec c 65536).
  { cbn [app decode]. unfold second_of_3, between, continuation, between.
    replace (c / 4096) with (c / 64 / 64) by (rewrite !N.Div0.div_div; reflexivity).
    split_div (c / 64) 64. split_div c 64.
    compare_all; cbn [andb]; do 2 f_equal; lia. }
  cbn [app decode]. unfold second_of_4, between, continuation, between.
  replace (c / 262144) with (c / 64 / 64 / 64) by (rewrite !N.Div0.div_div; reflexivity).
  replace (c / 4096) with (c / 64 / 64) by (rewrite !N.Div0.div_div; reflexivity).
  split_div (c / 64 / 64) 64. split_div (c / 64) 64. split_div c 64.
  compare_all; cbn [andb]; do 2 f_equal; lia.
Qed.

Lemma decode_encode s : Forall scalar s -> decode (encode s) = Some s.
Proof.
  induction 1 as [|c s Hc Hs IH]; [reflexivity|].
  rewrite encode_cons, decode_encode_cp, IH by assumption. reflexivity.
Qed.

Lemma fmap_cons_Some (c : N) (o : option str) (s : str) :
  cons c <$> o = Some s -> exists t, o = Some t /\ s = c :: t.
Proof. destruct o as [t|]; cbn; [|discriminate]. intros [= <-]. eauto. Qed.

Lemma encode_cp_decoded2 b0 b1 :
  between 194 223 b0 = true -> continuation b1 = true ->
  let c := (b0 - 192) * 64 + (b1 - 128) in
  scalar c /\ encode_cp c = [b0; b1].
Proof.
  intros H0 H1 c.
  assert (Hc : c = (b0 - 192) * 64 + (b1 - 128)) by reflexivity. clearbody c.
  unfold continuation, between, scalar, encode_cp in *.
  apply andb_true_iff in H0 as [? ?], H1 as [? ?].
  split_div c 64. compare_all. split; [lia|]. repeat f_equal; lia.
Qed.

Lemma encode_cp_decoded3 b0 b1 b2 :
  between 224 239 b0 = true -> second_of_3 b0 b1 = true ->
  continuation b2 = true ->
  let c := (b0 - 224) * 4096 + (b1 - 128) * 64 + (b2 - 128) in
  scalar c /\ encode_cp c = [b0; b1; b2].
Proof.
  intros H0 H1 H2 c.
  assert (Hc : c = (b0 - 224) * 4096 + (b1 - 128) * 64 + (b2 - 128)) by reflexivity.
  clearbody c.
  unfold second_of_3, continuation, between, scalar, encode_cp in *.
  apply andb_true_iff in H0 as [? ?], H2 as [? ?].
  replace (c / 4096) with (c / 64 / 64) by (rewrite !N.Div0.div_div; reflexivity).
  split_div (c / 64) 64. split_div c 64.
  compare_all; apply andb_true_iff in H1 as [? ?]; compare_all;
    (split; [lia|repeat f_equal; lia]).
Qed.

Lemma encode_cp_decoded4 b0 b1 b2 b3 :
  between 240 244 b0 = true -> second_of_4 b0 b1 = true ->
  continuation b2 = true -> continuation b3 = true ->
  let c := (b0 - 240) * 262144 + (b1 - 128) * 4096
           + (b2 - 128) * 64 + (b3 - 128) in
  scalar c /\ encode_cp c = [b0; b1; b2; b3].
Proof.
  intros H0 H1 H2 H3 c.
  assert (Hc : c = (b0 - 240) * 262144 + (b1 - 128) * 4096
                   + (b2 - 128) * 64 + (b3 - 128)) by reflexivity.
  clearbody c.
  unfold second_of_4, continuation, between, scalar, encode_cp in *.
  apply andb_true_iff in H0 as [? ?], H2 as [? ?], H3 as [? ?].
  replace (c / 262144) with (c / 64 / 64 / 64) by (rewrite !N.Div0.div_div; reflexivity).
  replace (c / 4096) with (c / 64 / 64) by (rewrite !N.Div0.div_div; reflexivity).
  split_div (c / 64 / 64) 64. split_div (c / 64) 64. split_div c 64.
  compare_all; apply andb_true_iff in H1 as [? ?]; compare_all;
    (split; [lia|repeat f_equal; lia]).
Qed.

Lemma decode_sound_upto n : forall l s,
  (length l <= n)%nat -> decode l = Some s ->
  Forall scalar s /\ encode s = l.
Proof.
  induction n as [|n IH]; intros l s Hlen Hdec.
  { destruct l; [|cbn in Hlen; lia]. injection Hdec as <-. split; [constructor|reflexivity]. }
  destruct l as [|b0 r0]; [injection Hdec as <-; split; [constructor|reflexivity]|].
  cbn [decode] in Hdec. cbn [length] in Hlen.
  destruct (N.ltb_spec b0 128) as [Hlt|Hge].
  { apply fmap_cons_Some in Hdec as (t & Ht & ->).
    apply IH in Ht as [Hs He]; [|lia]. split.
    - constructor; [left; lia|assumption].
    - rewrite encode_cons, encode_cp_ascii, He by assumption. reflexivity. }
  destruct (between 194 223 b0) eqn:E2.
  { destruct r0 as [|b1 r1]; [discriminate|].
    destruct (continuation b1) eqn:C1; [|discriminate].
    apply fmap_cons_Some in Hdec as (t & Ht & ->).
    apply IH in Ht as [Hs He]; [|cbn [length] in Hlen; lia].
    destruct (encode_cp_decoded2 b0 b1 E2 C1) as [Hsc Henc]. split.
    - constructor; assumption.
    - rewrite encode_cons, Henc, He. reflexivity. }
  destruct (between 224 239 b0) eqn:E3.
  { destruct r0 as [|b1 [|b2 r2]]; try discriminate.
    destruct (second_of_3 b0 b1) eqn:C1; [|discriminate].
    destruct (continuation b2) eqn:C2; [|discriminate]. cbn [andb] in Hdec.
    apply fmap_cons_Some in Hdec as (t & Ht & ->).
    apply IH in Ht as [Hs He]; [|cbn [length] in Hlen; lia].
    destruct (encode_cp_decoded3 b0 b1 b2 E3 C1 C2) as [Hsc Henc]. split.
    - constructor; assumption.
    - rewrite encode_cons, Henc, He. reflexivity. }
  destruct (between 240 244 b0) eqn:E4; [|discriminate].
  destruct r0 as [|b1 [|b2 [|b3 r3]]]; try discriminate.
  destruct (second_of_4 b0 b1) eqn:C1; [|discriminate].
  destruct (continuation b2) eqn:C2; [|discriminate].
  destruct (continuation b3) eqn:C3; [|discriminate]. cbn [andb] in Hdec.
  apply fmap_cons_Some in Hdec as (t & Ht & ->).
  apply IH in Ht as [Hs He]; [|cbn [length] in Hlen; lia].
  destruct (encode_cp_decoded4 b0 b1 b2 b3 E4 C1 C2 C3) as [Hsc Henc]. split.
  - constructor; assumption.
  - rewrite encode_cons, Henc, He. reflexivity.
Qed.

Lemma decode_sound l s :
  decode l = Some s -> Forall scalar s /\ encode s = l.
Proof. apply (decode_sound_upto (length l)). lia. Qed.

(** The decoder accepts exactly the encodings of scalar-value texts. *)
Lemma decode_iff l s :
  decode l = Some s <-> Forall scalar s /\ encode s = l.
Proof.
  split; [apply decode_sound|].
  intros [Hs <-]. apply decode_encode, Hs.
Qed.
End Utf8Facts.

(** ** The monad and the logging sink *)

Lemma parse_body_run {S} (content : bytes) (s : S) :
  parse_body content s = (Ok (decoded content), s).
Proof.
  unfold parse_body, try_except, bind, bytes_decode, decoded.
  destruct (Utf8.decode (octets content)); reflexivity.
Qed.

Lemma fold_left_app_concat {A} (l : list (list A)) (acc : list A) :
  fold_left (fun acc chunk => acc ++ chunk) l acc = acc ++ concat l.
Proof.
  revert acc. induction l as [|c l IH]; intros acc; cbn.
  - symmetry. apply app_nil_r.
  - rewrite IH. symmetry. apply app_assoc.
Qed.

Lemma drain_run {S} (it : AsyncIter) (s : S) :
  drain it s = match failure it with
               | None => (Ok (concat (chunks it)), s)
               | Some e => (Raise e, s)
               end.
Proof.
  unfold drain. rewrite fold_left_app_concat.
  destruct (failure it); reflexivity.
Qed.

Lemma emits_ret : emits (ret tt) [].
Proof. intros [rs lv]. unfold ret. cbn. rewrite app_nil_r. reflexivity. Qed.

Lemma emits_log l msg : emits (logging_log l msg) [(l, msg)].
Proof. intros e. reflexivity. Qed.

Lemma emits_seq (c1 c2 : Callback unit) l1 l2 :
  emits c1 l1 -> emits c2 l2 -> emits (c1 ;;; c2) (l1 ++ l2).
Proof.
  intros H1 H2 e. unfold bind. rewrite H1, H2. cbn.
  rewrite app_assoc. reflexivity.
Qed.

Lemma emits_for_each {A} (xs : list A) (body : A -> Callback unit)
      (lines : A -> list LogRecord) :
  (forall x, emits (body x) (lines x)) ->
  emits (for_each xs body) (flat_map lines xs).
Proof.
  intros Hbody. induction xs as [|x xs IH]; cbn [for_each flat_map].
  - apply emits_ret.
  - apply emits_seq; [apply Hbody|apply IH].
Qed.

Lemma emits_produced c ls : emits c ls -> produced c = ls.
Proof. intros H. unfold produced. rewrite H. reflexivity. Qed.

Lemma emits_inj c l1 l2 : emits c l1 -> emits c l2 -> l1 = l2.
Proof. intros H1 H2. rewrite <- (emits_produced c l1), <- (emits_produced c l2); auto. Qed.

Lemma flat_map_singleton {A B} (f : A -> B) (l : list A) :
  flat_map (fun x => [f x]) l = List.map f l.
Proof. induction l; cbn; congruence. Qed.

Lemma default_logger_emits kw :
  emits (default_logger kw) (flat_map (field_lines INFO DEBUG) kw).
Proof.
  unfold default_logger. apply emits_for_each. intros [k v].
  destruct v as [|z|s|b|d]; cbn [field_lines]; try apply emits_log.
  rewrite <- flat_map_singleton.
  apply emits_for_each. intros [kk vv]. apply emits_log.
Qed.

Lemma default_error_logger_emits kw :
  emits (default_error_logger kw) (flat_map (field_lines ERROR ERROR) kw).
Proof.
  unfold default_error_logger. apply emits_for_each. intros [k v].
  destruct v as [|z|s|b|d]; cbn [field_lines]; try apply emits_log.
  rewrite <- flat_map_singleton.
  apply emits_for_each. intros [kk vv]. apply emits_log.
Qed.

Lemma field_lines_error f :
  field_lines ERROR ERROR f
  = List.map (fun r => (ERROR, snd r)) (field_lines INFO DEBUG f).
Proof.
  destruct f as [k v]. destruct v as [|z|s|b|d]; cbn; try reflexivity.
  rewrite List.map_map. apply List.map_ext. intros [kk vv]. reflexivity.
Qed.

(** ** Requests *)

(** The framework's loop, one [receive] at a time. *)
Lemma stream_step rc acc :
  stream rc acc =
  let (m, rc') := receive rc in
  match m with
  | http_request b true => stream rc' (acc ++ b)
  | http_request b false => (Ok (acc ++ b), rc')
  | http_disconnect => (Raise ClientDisconnect, rc')
  end.
Proof.
  destruct rc as [[|[b [|]|] q]|body]; reflexivity.
Qed.

Lemma Request_body_fields r res r1 :
  Request.body r = (res, r1) ->
  Request.method r1 = Request.method r /\ Request.url r1 = Request.url r /\
  Request.headers r1 = Request.headers r /\
  Request.query_params r1 = Request.query_params r.
Proof.
  unfold Request.body. destruct (Request._body r).
  - intros [= _ <-]. auto.
  - destruct (stream (Request._receive r) []) as [[b|e] rc];
      intros [= _ <-]; auto.
Qed.

Lemma Request_body_cached r b r1 :
  Request.body r = (Ok b, r1) -> Request._body r1 = Some b.
Proof.
  unfold Request.body. destruct (Request._body r) eqn:E.
  - intros [= <- <-]. assumption.
  - destruct (stream (Request._receive r) []) as [[b'|e] rc];
      intros [= <- <-]; reflexivity.
Qed.

Lemma request_fields_set_body r b r1 v :
  Request.body r = (Ok b, r1) ->
  request_fields (set_body r1 b) v = request_fields r v.
Proof.
  intros H. apply Request_body_fields in H as (Hm & Hu & Hh & Hq).
  unfold request_fields, set_body. cbn. rewrite Hm, Hu, Hh, Hq. reflexivity.
Qed.

(** ** The paths through [middleware_logger] *)

Section Paths.

Variables custom_logger custom_error_logger : Logger.
Variable request : Request.t.
Variable call_next : Request.t -> Callback Upstream.t.
Variable w : World.

Local Abbreviation run :=
  (middleware_logger custom_logger custom_error_logger request call_next w).

(** The request body cannot be read: nothing else happens. *)
Lemma middleware_logger_unread e r1 :
  Request.body request = (Raise e, r1) ->
  run = (Raise e, w).
Proof.
  intros Hb. unfold middleware_logger, bind, on_object. rewrite Hb.
  reflexivity.
Qed.

Variable request_body : bytes.
Variable r1 : Request.t.
Hypothesis Hbody : Request.body request = (Ok request_body, r1).

(** The handler raises. *)
Lemma middleware_logger_raises exc e1 :
  call_next (set_body r1 request_body) (env w) = (Raise exc, e1) ->
  let kw := request_fields request (decoded request_body)
            ++ [(lit "error_message", VStr (str_exc exc))] in
  run = (match fst (custom_error_logger kw e1) with
         | Ok _ => Raise exc
         | Raise e' => Raise e'
         end,
         {| env := snd (custom_error_logger kw e1);
            history := history w
                       ++ [HandlerCalled (set_body r1 request_body);
                           ErrorLoggerCalled kw] |}).
Proof.
  intros Hcall kw. unfold middleware_logger, bind, on_object.
  rewrite Hbody. unfold try_except at 1. unfold invoke at 1. rewrite Hcall.
  rewrite parse_body_run. unfold invoke. cbn [env history].
  rewrite (request_fields_set_body _ _ _ _ Hbody). fold kw.
  destruct (custom_error_logger kw e1) as [[[]|e'] e2]; cbn;
    rewrite <- app_assoc; reflexivity.
Qed.

(** The handler returns a response whose body stream fails. *)
Lemma middleware_logger_stream_fails up e1 e :
  call_next (set_body r1 request_body) (env w) = (Ok up, e1) ->
  failure (Upstream.body_iterator up) = Some e ->
  run = (Raise e,
         {| env := e1;
            history := history w
                       ++ [HandlerCalled (set_body r1 request_body)] |}).
Proof.
  intros Hcall Hfail. unfold middleware_logger, bind, on_object.
  rewrite Hbody. unfold try_except, invoke. rewrite Hcall.
  rewrite drain_run, Hfail. reflexivity.
Qed.

(** The handler returns a response whose body stream drains. *)
Lemma middleware_logger_returns up e1 :
  call_next (set_body r1 request_body) (env w) = (Ok up, e1) ->
  failure (Upstream.body_iterator up) = None ->
  let response_body := concat (chunks (Upstream.body_iterator up)) in
  run = (Ok {| Response.content := response_body;
               Response.status_code := Upstream.status_code up;
               Response.headers := dict_of_headers (Upstream.headers up);
               Response.media_type := Upstream.media_type up;
               Response.background := Some
                 {| func := custom_logger;
                    task_kwargs :=
                      request_fields request (decoded request_body)
                      ++ [ (lit "response_body", decoded response_body);
                           (lit "response_headers",
                              VDict (dict_of_headers (Upstream.headers up)));
                           (lit "response_media_type",
                              option_value (Upstream.media_type up));
                           (lit "response_status_code",
                              VInt (Upstream.status_code up)) ] |} |},
         {| env := e1;
            history := history w
                       ++ [HandlerCalled (set_body r1 request_body)] |}).
Proof.
  intros Hcall Hfail rb. unfold middleware_logger, bind, on_object.
  rewrite Hbody. unfold try_except, invoke. rewrite Hcall.
  rewrite drain_run, Hfail, !parse_body_run.
  rewrite (request_fields_set_body _ _ _ _ Hbody). reflexivity.
Qed.

End Paths.

(** ** The request body after [set_body] *)

Lemma stream_body_messages chunks acc :
  stream_queue (Request.body_messages chunks) acc
  = (Ok (acc ++ concat chunks), channel []).
Proof.
  revert acc. induction chunks as [|c cs IH]; intros acc; [reflexivity|].
  destruct cs as [|c' cs].
  - cbn. rewrite app_nil_r. reflexivity.
  - change (Request.body_messages (c :: c' :: cs))
      with (http_request c true :: Request.body_messages (c' :: cs)).
    cbn [stream_queue]. rewrite IH.
    change (concat (c :: c' :: cs)) with (c ++ concat (c' :: cs)).
    rewrite app_assoc. reflexivity.
Qed.

(** The middleware's first read returns the whole body the server
    delivers, and leaves the server's channel empty. *)
Lemma incoming_body m u h q chunks :
  Request.body (Request.incoming m u h q chunks)
  = (Ok (concat chunks),
     {| Request.method := m; Request.url := u; Request.headers := h;
        Request.query_params := q; Request._receive := channel [];
        Request._body := Some (concat chunks) |}).
Proof.
  unfold Request.body, Request.incoming. cbn.
  rewrite stream_body_messages. reflexivity.
Qed.

(** Without [set_body], a consumer that goes back to the server's channel
    finds it empty. *)
Lemma unpatched_body_is_gone m u h q chunks :
  let r1 := snd (Request.body (Request.incoming m u h q chunks)) in
  fst (Request.body (Request.rewrap r1)) = Raise ClientDisconnect.
Proof. cbn zeta. rewrite incoming_body. reflexivity. Qed.

Lemma read_again_replay how : forall r b,
  Request._receive r = replay b ->
  (Request._body r = None \/ Request._body r = Some b) ->
  read_again how r = List.map (fun _ => Ok b) how.
Proof.
  induction how as [|fresh how IH]; intros r b Hrc Hcache; [reflexivity|].
  cbn [read_again List.map].
  assert (Hread : exists r',
             Request.body (if fresh then Request.rewrap r else r) = (Ok b, r')
             /\ Request._receive r' = replay b
             /\ (Request._body r' = None \/ Request._body r' = Some b)).
  { destruct fresh.
    - unfold Request.body, Request.rewrap. cbn. rewrite Hrc. cbn.
      eexists. split; [reflexivity|]. cbn. auto.
    - unfold Request.body. destruct Hcache as [Hc|Hc]; rewrite Hc.
      + rewrite Hrc. cbn. eexists. split; [reflexivity|]. cbn. auto.
      + exists r. rewrite Hc. auto. }
  destruct Hread as (r' & -> & Hrc' & Hcache').
  f_equal. apply IH; assumption.
Qed.

(** C5: once the middleware has read the request body [b] (for a request
    the server delivers in chunks, their concatenation) and installed the
    replacement source with [set_body], reading the request's [receive]
    yields [b] and leaves the source as it was, and a downstream consumer
    reading the body any number of times, through the request object or
    through a new one over the same [receive], obtains [b] at every
    read. *)
Theorem set_body_replays_body (request : Request.t) (b : bytes) (r1 : Request.t) :
  Request.body request = (Ok b, r1) ->
  let patched := set_body r1 b in
  (forall m u h q chunks,
      request = Request.incoming m u h q chunks -> b = concat chunks) /\
  stream (Request._receive patched) [] = (Ok b, Request._receive patched) /\
  forall how, read_again how patched = List.map (fun _ => Ok b) how.
Proof.
  intros Hbody patched. split; [|split; [reflexivity|]].
  - intros m u h q chunks ->. rewrite incoming_body in Hbody.
    injection Hbody as <- _. reflexivity.
  - intros how. apply read_again_replay; [reflexivity|].
    right. unfold patched, set_body. cbn.
    apply (Request_body_cached _ _ _ Hbody).
Qed.

Lemma set_body_replays_body_witness :
  Request.body Sample.request
  = (Ok Sample.request_body, snd (Request.body Sample.request)) /\
  read_again [true; false; true] Sample.patched
  = [Ok Sample.request_body; Ok Sample.request_body; Ok Sample.request_body].
Proof.
  split; [reflexivity|].
  apply (set_body_replays_body Sample.request Sample.request_body
           (snd (Request.body Sample.request)) eq_refl).
Defined.

(** ** [parse_body] *)

(** C6: for every byte sequence [b], [parse_body] returns the text [s]
    whenever [b] is the UTF-8 encoding of [s], returns [b] itself whenever
    [b] is not valid UTF-8, and in every case returns a value without
    raising. *)
Theorem parse_body_decodes_or_keeps {S : Type} (b : bytes) (st : S) :
  (forall s, Utf8.encodes s b -> parse_body b st = (Ok (VStr s), st)) /\
  (~ Utf8.valid b -> parse_body b st = (Ok (VBytes b), st)) /\
  (exists v, parse_body b st = (Ok v, st)).
Proof.
  rewrite parse_body_run. unfold decoded. repeat split.
  - intros s [Hs Hb]. rewrite Hb, Utf8Facts.decode_encode by assumption.
    reflexivity.
  - intros Hinvalid. destruct (Utf8.decode (octets b)) as [s|] eqn:E;
      [|reflexivity].
    exfalso. apply Hinvalid. exists s.
    apply Utf8Facts.decode_sound in E as [Hs He]. split; [assumption|].
    symmetry. assumption.
  - eauto.
Qed.

(** ** The default loggers *)

Lemma produced_field_default f :
  produced (default_logger [f]) = field_lines INFO DEBUG f.
Proof.
  rewrite (emits_produced _ _ (default_logger_emits [f])).
  cbn [flat_map]. apply app_nil_r.
Qed.

Lemma slice_to_20 {A} (b : list A) :
  slice_to 20 b = if (length b <=? 20)%nat then b else firstn 20 b.
Proof.
  unfold slice_to. destruct (Nat.leb_spec (length b) 20); [|reflexivity].
  apply firstn_all2. assumption.
Qed.

(** C7: the default success logger goes through the fields in order and
    writes, for a field holding a mapping, one INFO line
    [<field>: <key> = <value>] per entry; for a field holding bytes, one
    DEBUG line showing the bytes in full when there are at most 20 of them
    and their first 20 otherwise; for any other field, one DEBUG line
    [<field>: <value>]. *)
Theorem default_logger_lines :
  (forall kw,
      emits (default_logger kw)
            (flat_map (fun f => produced (default_logger [f])) kw)) /\
  (forall k d,
      produced (default_logger [(k, VDict d)])
      = List.map (fun '(kk, vv) => (INFO, k ++ lit ": " ++ kk ++ lit " = " ++ vv)) d) /\
  (forall k b,
      produced (default_logger [(k, VBytes b)])
      = [(DEBUG, k ++ lit ": " ++ dquote
                   ++ bytes_repr (if (length b <=? 20)%nat then b
                                  else firstn 20 b)
                   ++ dquote)]
      /\ length (firstn 20 b) = Nat.min 20 (length b)) /\
  (forall k s,
      produced (default_logger [(k, VStr s)]) = [(DEBUG, k ++ lit ": " ++ s)]) /\
  (forall k z,
      produced (default_logger [(k, VInt z)])
      = [(DEBUG, k ++ lit ": " ++ int_str z)]) /\
  (forall k,
      produced (default_logger [(k, VNone)])
      = [(DEBUG, k ++ lit ": " ++ lit "None")]).
Proof.
  repeat apply conj; intros.
  - rewrite (flat_map_ext _ (field_lines INFO DEBUG)) by apply produced_field_default.
    apply default_logger_emits.
  - apply produced_field_default.
  - split; [|apply length_firstn].
    rewrite produced_field_default. cbn [field_lines].
    rewrite slice_to_20. reflexivity.
  - apply produced_field_default.
  - apply produced_field_default.
  - apply produced_field_default.
Qed.

(** C8: on every field mapping the default error logger writes the lines
    the default success logger writes, message for message and in the same
    order, each of them at ERROR level. *)
Theorem default_error_logger_lines (kw : kwargs) :
  exists ls,
    emits (default_logger kw) ls /\
    emits (default_error_logger kw) (List.map (fun r => (ERROR, snd r)) ls).
Proof.
  exists (flat_map (field_lines INFO DEBUG) kw). split.
  - apply default_logger_emits.
  - replace (List.map _ _) with (flat_map (field_lines ERROR ERROR) kw).
    + apply default_error_logger_emits.
    + induction kw as [|f kw IH]; [reflexivity|].
      cbn [flat_map]. rewrite List.map_app, IH, field_lines_error. reflexivity.
Qed.

(** ** [disable_loggers] *)

Lemma set_after_get name lvl e :
  (logger <- getLogger name ;; setLevel logger lvl) e
  = (Ok tt, {| records := records e; levels := <[name := lvl]> (levels e) |}).
Proof.
  unfold bind, getLogger, setLevel. cbn. do 2 f_equal.
  destruct (levels e !! name); [reflexivity|]. apply insert_insert_eq.
Qed.


Lemma set_then (name : string) (lvl : Level) (k : Callback unit) e :
  (logger <- getLogger name ;; setLevel logger lvl ;;; k) e
  = k {| records := records e; levels := <[name := lvl]> (levels e) |}.
Proof.
  unfold bind at 1. unfold getLogger at 1. unfold bind at 1.
  unfold setLevel at 1. cbn [records levels]. f_equal. f_equal.
  destruct (levels e !! name); [reflexivity|]. apply insert_insert_eq.
Qed.

Lemma disable_loggers_run e :
  disable_loggers e
  = (Ok tt, {| records := records e; levels := silenced (levels e) |}).
Proof.
  unfold disable_loggers. rewrite !set_then. rewrite set_after_get.
  reflexivity.
Qed.

Lemma silenced_lookup m name :
  silenced m !! name
  = if decide (name = "fastapi" \/ name = "uvicorn"
               \/ name = "uvicorn.access" \/ name = "uvicorn.error")
    then Some CRITICAL else m !! name.
Proof.
  unfold silenced.
  destruct (decide (name = "fastapi")) as [->|H1];
    [rewrite lookup_insert_eq, decide_True by auto; reflexivity|].
  rewrite lookup_insert_ne by congruence.
  destruct (decide (name = "uvicorn")) as [->|H2];
    [rewrite lookup_insert_eq, decide_True by auto; reflexivity|].
  rewrite lookup_insert_ne by congruence.
  destruct (decide (name = "uvicorn.access")) as [->|H3];
    [rewrite lookup_insert_eq, decide_True by auto; reflexivity|].
  rewrite lookup_insert_ne by congruence.
  destruct (decide (name = "uvicorn.error")) as [->|H4];
    [rewrite lookup_insert_eq, decide_True by auto; reflexivity|].
  rewrite lookup_insert_ne by congruence.
  rewrite decide_False by tauto. reflexivity.
Qed.

Lemma silenced_idempotent m : silenced (silenced m) = silenced m.
Proof.
  apply map_eq. intros name. rewrite !silenced_lookup.
  case_decide; reflexivity.
Qed.

Lemma disable_loggers_times n e :
  times (S n) disable_loggers e = disable_loggers e.
Proof.
  revert e. induction n as [|n IH]; intros e.
  - cbn [times]. unfold bind, ret. rewrite disable_loggers_run. reflexivity.
  - change (times (S (S n)) disable_loggers)
      with (disable_loggers ;;; times (S n) disable_loggers).
    unfold bind at 1. rewrite disable_loggers_run, IH.
    rewrite !disable_loggers_run. cbn [records levels].
    rewrite silenced_idempotent. reflexivity.
Qed.

(** C9: [disable_loggers] returns nothing and leaves the thresholds of the
    loggers "fastapi", "uvicorn.access" and "uvicorn.error" at CRITICAL,
    the highest of the logging levels; calling it [n + 1] times in a row
    leaves the logging state exactly as one call does. *)
Theorem disable_loggers_idempotent (e : Env) :
  fst (disable_loggers e) = Ok tt /\
  levels (snd (disable_loggers e)) !! "fastapi" = Some CRITICAL /\
  levels (snd (disable_loggers e)) !! "uvicorn.access" = Some CRITICAL /\
  levels (snd (disable_loggers e)) !! "uvicorn.error" = Some CRITICAL /\
  (forall l, (level_value l <= level_value CRITICAL)%Z) /\
  (forall n, times (S n) disable_loggers e = disable_loggers e).
Proof.
  rewrite disable_loggers_run. cbn [fst snd levels].
  repeat apply conj;
    try (rewrite silenced_lookup, decide_True by auto; reflexivity).
  - reflexivity.
  - intros []; cbn; lia.
  - intros n. rewrite disable_loggers_times, disable_loggers_run. reflexivity.
Qed.

(** ** The error path *)

(** C3: when the handler raises [exc], the middleware calls the error
    logger once, before it gives control back, in the state the handler
    left, with the request's body, headers, query parameters, method and
    URL and with [error_message = str(exc)].  It produces no response, and
    once the logger has returned it raises [exc] itself. *)
Theorem handler_exception_logged_then_reraised
        (custom_logger custom_error_logger : Logger)
        (request : Request.t) (call_next : Request.t -> Callback Upstream.t)
        (w : World) (b : bytes) (r1 : Request.t) (exc : exn) (e1 : Env) :
  Request.body request = (Ok b, r1) ->
  call_next (set_body r1 b) (env w) = (Raise exc, e1) ->
  let kw :=
    [ (lit "request_body", decoded b);
      (lit "request_headers", VDict (dict_of_headers (Request.headers request)));
      (lit "request_query_params",
         VDict (dict_of_query_params (Request.query_params request)));
      (lit "request_method", VStr (Request.method request));
      (lit "request_url", VStr (Request.url request));
      (lit "error_message", VStr (str_exc exc)) ] in
  let out := middleware_logger custom_logger custom_error_logger
                               request call_next w in
  history (snd out)
  = history w ++ [HandlerCalled (set_body r1 b); ErrorLoggerCalled kw] /\
  env (snd out) = snd (custom_error_logger kw e1) /\
  returned (fst out) = None /\
  (fst (custom_error_logger kw e1) = Ok tt -> fst out = Raise exc).
Proof.
  intros Hbody Hcall kw out. subst out.
  rewrite (middleware_logger_raises _ _ _ _ _ _ _ Hbody _ _ Hcall).
  change (request_fields request (decoded b)
          ++ [(lit "error_message", VStr (str_exc exc))]) with kw.
  cbn [fst snd env history]. repeat apply conj; try reflexivity.
  - destruct (fst (custom_error_logger kw e1)); reflexivity.
  - intros ->. reflexivity.
Qed.

Lemma handler_exception_logged_then_reraised_witness :
  Sample.handler_raises Sample.patched Sample.env0
  = (Raise Sample.bad_input, Sample.env0) /\
  fst (middleware_logger default_logger default_error_logger
                         Sample.request Sample.handler_raises Sample.w0)
  = Raise Sample.bad_input.
Proof.
  split; [reflexivity|].
  refine (proj2 (proj2 (proj2
            (handler_exception_logged_then_reraised
               default_logger default_error_logger
               Sample.request Sample.handler_raises Sample.w0
               Sample.request_body (snd (Request.body Sample.request))
               Sample.bad_input Sample.env0 eq_refl eq_refl))) _).
  vm_compute. reflexivity.
Defined.

(** A failing error logger: its exception, not the handler's, leaves the
    middleware. *)
Lemma failing_error_logger_takes_over
      (custom_logger custom_error_logger : Logger)
      (request : Request.t) (call_next : Request.t -> Callback Upstream.t)
      (w : World) (b : bytes) (r1 : Request.t) (exc e' : exn) (e1 e2 : Env) :
  Request.body request = (Ok b, r1) ->
  call_next (set_body r1 b) (env w) = (Raise exc, e1) ->
  custom_error_logger
    (request_fields request (decoded b)
     ++ [(lit "error_message", VStr (str_exc exc))]) e1 = (Raise e', e2) ->
  fst (middleware_logger custom_logger custom_error_logger request call_next w)
  = Raise e'.
Proof.
  intros Hbody Hcall Hlog.
  rewrite (middleware_logger_raises _ _ _ _ _ _ _ Hbody _ _ Hcall).
  cbn zeta. rewrite Hlog. reflexivity.
Qed.

(** ** The success path *)

(** C4: when the handler returns a response whose body drains, the
    middleware itself does not run the success logger: it ends in the very
    logging state the handler left, having called nothing but the handler,
    and hands back a response that carries the logger and its fields as
    background task.  The host then sends the start and the body of the
    response before it runs that task. *)
Theorem success_logger_deferred
        (custom_logger custom_error_logger : Logger)
        (request : Request.t) (call_next : Request.t -> Callback Upstream.t)
        (w : World) (b : bytes) (r1 : Request.t) (up : Upstream.t) (e1 : Env) :
  Request.body request = (Ok b, r1) ->
  call_next (set_body r1 b) (env w) = (Ok up, e1) ->
  failure (Upstream.body_iterator up) = None ->
  exists response kw,
    middleware_logger custom_logger custom_error_logger request call_next w
    = (Ok response,
       {| env := e1;
          history := history w ++ [HandlerCalled (set_body r1 b)] |}) /\
    Response.background response
    = Some {| func := custom_logger; task_kwargs := kw |} /\
    serve custom_logger custom_error_logger request call_next w
    = (fst (custom_logger kw e1),
       {| env := snd (custom_logger kw e1);
          history := history w
                     ++ [HandlerCalled (set_body r1 b);
                         SentStart (Response.status_code response)
                                   (Response.headers response);
                         SentBody (Response.content response);
                         BackgroundRun kw] |}).
Proof.
  intros Hbody Hcall Hdrain.
  pose proof (middleware_logger_returns custom_logger custom_error_logger
                _ _ w _ _ Hbody _ _ Hcall Hdrain) as Hrun.
  cbn zeta in Hrun. eexists _, _. split; [exact Hrun|]. split; [reflexivity|].
  unfold serve, bind. rewrite Hrun.
  unfold transmit, bind, emit, invoke. cbn.
  destruct (custom_logger _ e1) as [res e2]. cbn.
  rewrite <- !app_assoc. reflexivity.
Qed.

Lemma success_logger_deferred_witness :
  Sample.handler_ok Sample.patched Sample.env0
  = (Ok Sample.ok_response, Sample.env0) /\
  exists response kw,
    middleware_logger default_logger default_error_logger
                      Sample.request Sample.handler_ok Sample.w0
    = (Ok response,
       {| env := Sample.env0; history := [HandlerCalled Sample.patched] |}) /\
    Response.background response
    = Some {| func := default_logger; task_kwargs := kw |} /\
    serve default_logger default_error_logger
          Sample.request Sample.handler_ok Sample.w0
    = (fst (default_logger kw Sample.env0),
       {| env := snd (default_logger kw Sample.env0);
          history := [HandlerCalled Sample.patched;
                      SentStart (Response.status_code response)
                                (Response.headers response);
                      SentBody (Response.content response);
                      BackgroundRun kw] |}).
Proof.
  split; [reflexivity|].
  exact (success_logger_deferred
           default_logger default_error_logger
           Sample.request Sample.handler_ok Sample.w0
           Sample.request_body (snd (Request.body Sample.request))
           Sample.ok_response Sample.env0 eq_refl eq_refl eq_refl).
Defined.

(** ** One Log Event per request *)

Lemma new_events_app {A} (w : World) (r : Result A) (e : Env) (evs : list Event) :
  new_events w (r, {| env := e; history := history w ++ evs |}) = evs.
Proof. unfold new_events. cbn. apply drop_app_length. Qed.

(** C2, as the code has it: once the request body has been read, a run
    of the middleware produces exactly one Log Event when the handler
    raises (the error logger is called once, nothing is scheduled) and
    when the handler returns a response whose body stream drains (the
    success logger is scheduled once, the error logger is not called);
    when the stream fails while it is drained, the failure leaves the
    middleware and neither logger is called or scheduled. *)
Theorem log_events_of_a_request
        (custom_logger custom_error_logger : Logger)
        (request : Request.t) (call_next : Request.t -> Callback Upstream.t)
        (w : World) (b : bytes) (r1 : Request.t) :
  Request.body request = (Ok b, r1) ->
  let out := middleware_logger custom_logger custom_error_logger
                               request call_next w in
  match fst (call_next (set_body r1 b) (env w)) with
  | Raise _ =>
    error_logger_calls (new_events w out) = 1%nat
    /\ success_logger_scheduled (fst out) = 0%nat
    /\ log_events w out = 1%nat
  | Ok up =>
    match failure (Upstream.body_iterator up) with
    | None =>
      error_logger_calls (new_events w out) = 0%nat
      /\ success_logger_scheduled (fst out) = 1%nat
      /\ log_events w out = 1%nat
    | Some e =>
      error_logger_calls (new_events w out) = 0%nat
      /\ success_logger_scheduled (fst out) = 0%nat
      /\ fst out = Raise e
    end
  end.
Proof.
  intros Hbody out. unfold log_events.
  destruct (call_next (set_body r1 b) (env w)) as [[up|exc] e1] eqn:Hcall;
    cbn [fst].
  - destruct (failure (Upstream.body_iterator up)) as [e|] eqn:Hfail; subst out.
    + rewrite (middleware_logger_stream_fails _ _ _ _ _ _ _ Hbody _ _ _ Hcall Hfail).
      rewrite new_events_app. cbn. auto.
    + rewrite (middleware_logger_returns _ _ _ _ _ _ _ Hbody _ _ Hcall Hfail).
      cbn zeta. rewrite new_events_app. cbn. auto.
  - subst out.
    rewrite (middleware_logger_raises _ _ _ _ _ _ _ Hbody _ _ Hcall).
    cbn zeta. rewrite new_events_app. cbn [fst].
    destruct (fst (custom_error_logger _ e1)); cbn; auto.
Qed.

Lemma log_events_of_a_request_witness :
  Request.body Sample.request
  = (Ok Sample.request_body, snd (Request.body Sample.request)) /\
  log_events Sample.w0
             (middleware_logger default_logger default_error_logger
                                Sample.request Sample.handler_ok Sample.w0)
  = 1%nat.
Proof.
  split; [reflexivity|].
  exact (proj2 (proj2 (log_events_of_a_request
                         default_logger default_error_logger
                         Sample.request Sample.handler_ok Sample.w0
                         Sample.request_body
                         (snd (Request.body Sample.request)) eq_refl))).
Defined.

(** A handler returns a streaming response and the stream fails while the
    middleware drains it: the failure leaves the middleware, the error
    logger is not called and no success logger is scheduled. *)
Lemma failed_stream_leaves_no_log_event :
  fst (Sample.handler_broken Sample.patched Sample.env0)
  = Ok Sample.broken_response /\
  fst (middleware_logger default_logger default_error_logger
                         Sample.request Sample.handler_broken Sample.w0)
  = Raise Sample.broken_pipe /\
  log_events Sample.w0
             (middleware_logger default_logger default_error_logger
                                Sample.request Sample.handler_broken Sample.w0)
  = 0%nat.
Proof. repeat split; vm_compute; reflexivity. Qed.

(** ** The rebuilt response *)

Lemma dict_set_fresh {V} (k : str) (v : V) (d : pydict V) :
  k ∉ List.map fst d -> dict_set k v d = d ++ [(k, v)].
Proof.
  induction d as [|[k' v'] d IH]; intros Hk; [reflexivity|].
  cbn [dict_set]. cbn in Hk. rewrite not_elem_of_cons in Hk.
  destruct Hk as [Hne Hk]. rewrite decide_False by assumption.
  rewrite IH by assumption. reflexivity.
Qed.

Lemma Headers_getitem_first (pre post : Headers) (k v : str) :
  k ∉ Headers_keys pre ->
  Headers_getitem (pre ++ (k, v) :: post) k = Some v.
Proof.
  induction pre as [|[k' v'] pre IH]; intros Hk; cbn.
  - rewrite decide_True by reflexivity. reflexivity.
  - cbn in Hk. rewrite not_elem_of_cons in Hk. destruct Hk as [Hne Hk].
    rewrite decide_False by congruence. apply IH, Hk.
Qed.

Lemma dict_of_headers_distinct_from (pre post : Headers) :
  NoDup (Headers_keys (pre ++ post)) ->
  fold_left (fun d k => match Headers_getitem (pre ++ post) k with
                        | Some v => dict_set k v d
                        | None => d
                        end) (Headers_keys post) pre
  = pre ++ post.
Proof.
  revert pre. induction post as [|[k v] post IH]; intros pre Hnd.
  - cbn. symmetry. apply app_nil_r.
  - cbn [Headers_keys List.map fst fold_left].
    assert (Hk : k ∉ Headers_keys pre).
    { unfold Headers_keys in *. rewrite List.map_app in Hnd.
      apply NoDup_app in Hnd as (_ & Hdisj & _). intros Hin.
      apply (Hdisj k Hin). cbn. left. }
    rewrite Headers_getitem_first by assumption.
    rewrite dict_set_fresh by assumption.
    replace (pre ++ (k, v) :: post) with ((pre ++ [(k, v)]) ++ post) in *
      by (rewrite <- app_assoc; reflexivity).
    apply IH. assumption.
Qed.

(** A header list without repeated names survives [dict(...)] as it is. *)
Lemma dict_of_headers_distinct (h : Headers) :
  NoDup (Headers_keys h) -> dict_of_headers h = h.
Proof. intros Hnd. apply (dict_of_headers_distinct_from [] h Hnd). Qed.

(** What the rebuilt response keeps: the status code, the media type and
    the drained body always, the headers when no header name repeats. *)
Lemma response_rebuilt
      (custom_logger custom_error_logger : Logger)
      (request : Request.t) (call_next : Request.t -> Callback Upstream.t)
      (w : World) (b : bytes) (r1 : Request.t) (up : Upstream.t) (e1 : Env) :
  Request.body request = (Ok b, r1) ->
  call_next (set_body r1 b) (env w) = (Ok up, e1) ->
  failure (Upstream.body_iterator up) = None ->
  exists response,
    fst (middleware_logger custom_logger custom_error_logger
                           request call_next w) = Ok response /\
    Response.status_code response = Upstream.status_code up /\
    Response.media_type response = Upstream.media_type up /\
    Response.content response = concat (chunks (Upstream.body_iterator up)) /\
    (NoDup (Headers_keys (Upstream.headers up)) ->
     Response.headers response = Upstream.headers up).
Proof.
  intros Hbody Hcall Hdrain.
  rewrite (middleware_logger_returns _ _ _ _ _ _ _ Hbody _ _ Hcall Hdrain).
  cbn zeta. eexists. split; [reflexivity|]. cbn.
  repeat split. apply dict_of_headers_distinct.
Qed.

(** C1, at a response that sets two cookies: the handler's response
    carries two [set-cookie] headers, the response the middleware returns
    carries the first one only. *)
Theorem repeated_header_names_collapse :
  fst (Sample.handler_cookies Sample.patched Sample.env0)
  = Ok Sample.cookie_response /\
  Upstream.headers Sample.cookie_response
  = [(lit "set-cookie", lit "a=1"); (lit "set-cookie", lit "b=2")] /\
  Response.headers
    <$> returned (fst (middleware_logger default_logger default_error_logger
                         Sample.request Sample.handler_cookies Sample.w0))
  = Some [(lit "set-cookie", lit "a=1")].
Proof. repeat split. Qed.

(** ** From the middleware to the client *)


(** ** Bodies that decode *)





(** ** Registration *)


(** ** Worked inputs *)

(** [b"\x00A'\xff\n"] has a single quote and no double quote, so its
    [repr] is delimited by double quotes. *)
Example bytes_repr_mixed :
  bytes_repr [x00; x41; x27; xff; x0a]
  = lit "b" ++ dquote ++ lit "\x00A'\xff\n" ++ dquote.
Proof. reflexivity. Qed.

Example int_str_status : int_str 404 = lit "404" /\ int_str (-7) = lit "-7".
Proof. split; reflexivity. Qed.

(** The euro sign, three bytes long. *)
Example decode_euro : Utf8.decode [226; 130; 172] = Some [8364].
Proof. reflexivity. Qed.

(** An encoded surrogate and an overlong slash are rejected. *)
Example decode_rejects :
  Utf8.decode [237; 160; 128] = None /\ Utf8.decode [192; 175] = None.
Proof. split; reflexivity. Qed.

(** Repeated query parameters keep the last value, repeated headers the
    first. *)
Example dict_of_repeated_names :
  dict_of_query_params [(lit "a", lit "1"); (lit "a", lit "2")]
  = [(lit "a", lit "2")] /\
  dict_of_headers [(lit "a", lit "1"); (lit "a", lit "2")]
  = [(lit "a", lit "1")].
Proof. split; reflexivity. Qed.

(** Thirty bytes that are not UTF-8 stay bytes, and the default logger
    shows the first twenty of them. *)
Example raw_body_is_cut :
  let raw := repeat xff 30 in
  decoded raw = VBytes raw /\
  produced (default_logger [(lit "request_body", decoded raw)])
  = [(DEBUG, lit "request_body: " ++ dquote
               ++ bytes_repr (repeat xff 20) ++ dquote)].
Proof. split; reflexivity. Qed.

(** The handler that raises [ValueError("bad input")]: the error logger
    is told [error_message: bad input] at ERROR level. *)
Example bad_input_is_logged :
  last (records (env (snd (middleware_logger
                             default_logger default_error_logger
                             Sample.request Sample.handler_raises Sample.w0))))
  = Some (ERROR, lit "error_message: bad input").
Proof. reflexivity. Qed.

(** * Further properties *)

(** ** Registration and logger thresholds *)

(** X1: [disable_loggers] emits no record and changes the threshold of no
    logger but "uvicorn.error", "uvicorn.access", "uvicorn" and "fastapi";
    each of these four ends at CRITICAL whatever it was before, also when
    it did not exist. *)
Theorem disable_loggers_touches_four_loggers (e : Env) (name : string) :
  records (snd (disable_loggers e)) = records e /\
  levels (snd (disable_loggers e)) !! name
  = if decide (name ∈ disabled_names) then Some CRITICAL
    else levels e !! name.
Proof.
  rewrite disable_loggers_run. cbn [snd records levels]. split; [reflexivity|].
  rewrite silenced_lookup. unfold disabled_names.
  destruct (decide (name = "fastapi" \/ name = "uvicorn"
                    \/ name = "uvicorn.access" \/ name = "uvicorn.error"))
    as [Hin|Hout].
  - rewrite decide_True; [reflexivity|].
    rewrite !elem_of_cons. tauto.
  - rewrite decide_False; [reflexivity|].
    rewrite !elem_of_cons, elem_of_nil. tauto.
Qed.


(** ** Further paths through the middleware *)

(** X3: when reading the request body raises, that exception leaves the
    middleware at once: the handler is not called, no logger is called or
    scheduled, and the logging state and the history are untouched. *)
Theorem unreadable_body_propagates
        (custom_logger custom_error_logger : Logger)
        (request : Request.t) (call_next : Request.t -> Callback Upstream.t)
        (w : World) (e : exn) (r1 : Request.t) :
  Request.body request = (Raise e, r1) ->
  let out := middleware_logger custom_logger custom_error_logger
                               request call_next w in
  out = (Raise e, w) /\
  handler_calls (new_events w out) = 0%nat /\
  log_events w out = 0%nat.
Proof.
  intros Hbody out. subst out.
  rewrite (middleware_logger_unread _ _ _ _ _ _ _ Hbody).
  unfold log_events, new_events. cbn [fst snd].
  rewrite drop_all. repeat split.
Qed.

Lemma unreadable_body_propagates_witness :
  Request.body Edge.drained_request
  = (Raise ClientDisconnect, Edge.drained_request) /\
  middleware_logger default_logger default_error_logger
                    Edge.drained_request Sample.handler_ok Sample.w0
  = (Raise ClientDisconnect, Sample.w0).
Proof.
  split; [reflexivity|].
  exact (proj1 (unreadable_body_propagates
                  default_logger default_error_logger
                  Edge.drained_request Sample.handler_ok Sample.w0
                  ClientDisconnect Edge.drained_request eq_refl)).
Defined.

(** X4: when the handler raises [exc] and the error logger then raises
    [e'], it is [e'] that leaves the middleware and [exc] is not raised
    again; the logger has still been called exactly once, what it did to
    the logging state stays, and no response or task is produced. *)
Theorem error_logger_failure_propagates
        (custom_logger custom_error_logger : Logger)
        (request : Request.t) (call_next : Request.t -> Callback Upstream.t)
        (w : World) (b : bytes) (r1 : Request.t) (exc e' : exn) (e1 e2 : Env) :
  Request.body request = (Ok b, r1) ->
  call_next (set_body r1 b) (env w) = (Raise exc, e1) ->
  custom_error_logger
    (request_fields request (decoded b)
     ++ [(lit "error_message", VStr (str_exc exc))]) e1 = (Raise e', e2) ->
  let out := middleware_logger custom_logger custom_error_logger
                               request call_next w in
  fst out = Raise e' /\
  env (snd out) = e2 /\
  error_logger_calls (new_events w out) = 1%nat /\
  success_logger_scheduled (fst out) = 0%nat.
Proof.
  intros Hbody Hcall Hlog out. subst out.
  rewrite (middleware_logger_raises _ _ _ _ _ _ _ Hbody _ _ Hcall).
  cbn zeta. rewrite Hlog, new_events_app. repeat split.
Qed.

Lemma error_logger_failure_propagates_witness :
  Sample.handler_raises Sample.patched Sample.env0
  = (Raise Sample.bad_input, Sample.env0) /\
  fst (middleware_logger default_logger Edge.failing_logger
                         Sample.request Sample.handler_raises Sample.w0)
  = Raise Edge.disk_full.
Proof.
  split; [reflexivity|].
  exact (proj1 (error_logger_failure_propagates
                  default_logger Edge.failing_logger
                  Sample.request Sample.handler_raises Sample.w0
                  Sample.request_body (snd (Request.body Sample.request))
                  Sample.bad_input Edge.disk_full Sample.env0
                  (snd (Edge.failing_logger [] Sample.env0))
                  eq_refl eq_refl eq_refl)).
Defined.

Lemma field_lines_error_level f :
  Forall (fun r => fst r = ERROR) (field_lines ERROR ERROR f).
Proof.
  destruct f as [k v]. destruct v as [|z|s|b|d]; cbn [field_lines];
    try (repeat constructor).
  induction d as [|[kk vv] d IH]; constructor; [reflexivity|exact IH].
Qed.

Lemma flat_map_Forall {A B} (P : B -> Prop) (f : A -> list B) (l : list A) :
  (forall x, Forall P (f x)) -> Forall P (flat_map f l).
Proof.
  intros H. induction l as [|x l IH]; cbn [flat_map]; [constructor|].
  apply Forall_app. split; [apply H|exact IH].
Qed.

(** X5: with the default error logger, a handler's exception is always
    raised again: the logger cannot fail.  All it adds to the sink are
    ERROR records, it leaves the thresholds alone, and its last record is
    [error_message: <str(exc)>]. *)
Theorem default_error_logger_path
        (custom_logger : Logger)
        (request : Request.t) (call_next : Request.t -> Callback Upstream.t)
        (w : World) (b : bytes) (r1 : Request.t) (exc : exn) (e1 : Env) :
  Request.body request = (Ok b, r1) ->
  call_next (set_body r1 b) (env w) = (Raise exc, e1) ->
  let out := middleware_logger custom_logger default_error_logger
                               request call_next w in
  fst out = Raise exc /\
  levels (env (snd out)) = levels e1 /\
  exists ls,
    records (env (snd out)) = records e1 ++ ls /\
    Forall (fun r => fst r = ERROR) ls /\
    last ls = Some (ERROR, lit "error_message" ++ lit ": " ++ str_exc exc).
Proof.
  intros Hbody Hcall out. subst out.
  rewrite (middleware_logger_raises _ _ _ _ _ _ _ Hbody _ _ Hcall).
  cbn zeta. rewrite !default_error_logger_emits.
  cbn [fst snd env records levels].
  repeat apply conj; try reflexivity.
  eexists. split; [reflexivity|]. split.
  - apply flat_map_Forall, field_lines_error_level.
  - rewrite flat_map_app. cbn [flat_map field_lines]. rewrite app_nil_r.
    apply last_snoc.
Qed.

Lemma default_error_logger_path_witness :
  Sample.handler_raises Sample.patched Sample.env0
  = (Raise Sample.bad_input, Sample.env0) /\
  fst (middleware_logger default_logger default_error_logger
                         Sample.request Sample.handler_raises Sample.w0)
  = Raise Sample.bad_input.
Proof.
  split; [reflexivity|].
  exact (proj1 (default_error_logger_path
                  default_logger Sample.request Sample.handler_raises
                  Sample.w0 Sample.request_body
                  (snd (Request.body Sample.request))
                  Sample.bad_input Sample.env0 eq_refl eq_refl)).
Defined.

(** ** Dictionaries built from headers and query parameters *)

Lemma dict_get_set {V} (d : pydict V) (k k' : str) (v : V) :
  dict_get (dict_set k v d) k'
  = if decide (k = k') then Some v else dict_get d k'.
Proof.
  induction d as [|[k0 v0] d IH]; cbn [dict_set dict_get].
  - destruct (decide (k = k')); reflexivity.
  - destruct (decide (k = k0)) as [->|Hne]; cbn [dict_get].
    + destruct (decide (k0 = k')); reflexivity.
    + rewrite IH. destruct (decide (k0 = k')) as [->|]; [|reflexivity].
      rewrite decide_False by assumption. reflexivity.
Qed.

Lemma dict_keys_set {V} (d : pydict V) (k : str) (v : V) :
  dict_keys (dict_set k v d)
  = if decide (k ∈ dict_keys d) then dict_keys d else dict_keys d ++ [k].
Proof.
  unfold dict_keys. induction d as [|[k0 v0] d IH]; cbn [dict_set List.map fst].
  - rewrite decide_False by apply not_elem_of_nil. reflexivity.
  - destruct (decide (k = k0)) as [->|Hne]; cbn [List.map fst].
    + rewrite decide_True by left. reflexivity.
    + rewrite IH. destruct (decide (k ∈ List.map fst d)) as [Hin|Hout].
      * rewrite decide_True by (right; exact Hin). reflexivity.
      * rewrite decide_False; [reflexivity|].
        rewrite elem_of_cons. tauto.
Qed.

Lemma dict_set_NoDup {V} (d : pydict V) (k : str) (v : V) :
  NoDup (dict_keys d) -> NoDup (dict_keys (dict_set k v d)).
Proof.
  intros Hnd. rewrite dict_keys_set.
  destruct (decide (k ∈ dict_keys d)) as [Hin|Hout]; [exact Hnd|].
  apply NoDup_app. repeat split; [exact Hnd| |apply NoDup_singleton].
  intros x Hx Hx'. apply list_elem_of_singleton in Hx'. subst x. tauto.
Qed.

Lemma Headers_getitem_Some (h : Headers) (k : str) :
  k ∈ Headers_keys h -> is_Some (Headers_getitem h k).
Proof.
  unfold Headers_keys. induction h as [|[k0 v0] h IH]; cbn.
  - intros H. apply elem_of_nil in H. contradiction.
  - rewrite elem_of_cons. intros [->|Hin].
    + rewrite decide_True by reflexivity. eauto.
    + destruct (decide (k0 = k)); [eauto|apply IH, Hin].
Qed.

Lemma Headers_getitem_None (h : Headers) (k : str) :
  k ∉ Headers_keys h -> Headers_getitem h k = None.
Proof.
  unfold Headers_keys. induction h as [|[k0 v0] h IH]; cbn; [reflexivity|].
  rewrite not_elem_of_cons. intros [Hne Hout].
  rewrite decide_False by congruence. apply IH, Hout.
Qed.

Lemma dict_get_as_getitem (d : pydict str) (k : str) :
  dict_get d k = Headers_getitem d k.
Proof. induction d as [|[a c] d IH]; cbn; [|rewrite IH]; reflexivity. Qed.

Lemma dict_of_mapping_from {V} (getitem : str -> option V) (ks : list str) :
  forall acc : pydict V,
    (forall k, k ∈ ks -> is_Some (getitem k)) ->
    NoDup (dict_keys acc) ->
    let d := fold_left (fun d k => match getitem k with
                                   | Some v => dict_set k v d
                                   | None => d
                                   end) ks acc in
    NoDup (dict_keys d) /\
    forall k, dict_get d k = if decide (k ∈ ks) then getitem k
                             else dict_get acc k.
Proof.
  induction ks as [|k0 ks IH]; intros acc Hks Hnd; cbn [fold_left].
  - split; [exact Hnd|]. intros k.
    rewrite decide_False by apply not_elem_of_nil. reflexivity.
  - destruct (Hks k0 ltac:(left)) as [v0 Hv0]. rewrite Hv0.
    destruct (IH (dict_set k0 v0 acc)) as [Hnd' Hget].
    { intros k Hk. apply Hks. right. exact Hk. }
    { apply dict_set_NoDup, Hnd. }
    split; [exact Hnd'|]. intros k. rewrite Hget, dict_get_set.
    destruct (decide (k ∈ ks)) as [Hin|Hout].
    + rewrite decide_True by (right; exact Hin). reflexivity.
    + destruct (decide (k0 = k)) as [->|Hne].
      * rewrite decide_True by left. symmetry. exact Hv0.
      * rewrite decide_False; [reflexivity|].
        rewrite elem_of_cons. intros [->|?]; tauto.
Qed.

(** X6: [dict(headers)] never holds a header name twice, and holds under
    each name the value of the first header of that name; a name the
    headers do not carry is not in it. *)
Theorem dict_of_headers_first_wins (h : Headers) :
  NoDup (dict_keys (dict_of_headers h)) /\
  (forall k, dict_get (dict_of_headers h) k = Headers_getitem h k) /\
  (forall k, k ∈ dict_keys (dict_of_headers h) <-> k ∈ Headers_keys h).
Proof.
  destruct (dict_of_mapping_from (Headers_getitem h) (Headers_keys h) [])
    as [Hnd Hget].
  { intros k. apply Headers_getitem_Some. }
  { constructor. }
  assert (Hget' : forall k, dict_get (dict_of_headers h) k = Headers_getitem h k).
  { intros k. unfold dict_of_headers, dict_of_mapping. rewrite Hget.
    destruct (decide (k ∈ Headers_keys h)) as [|Hout]; [reflexivity|].
    symmetry. apply Headers_getitem_None, Hout. }
  split; [exact Hnd|]. split; [exact Hget'|].
  intros k. split; intros Hin.
  - destruct (decide (k ∈ Headers_keys h)) as [|Hout]; [assumption|].
    exfalso. apply (Headers_getitem_Some (dict_of_headers h) k) in Hin.
    destruct Hin as [v Hv].
    rewrite <- dict_get_as_getitem, Hget' in Hv.
    rewrite (Headers_getitem_None _ _ Hout) in Hv. discriminate.
  - apply Headers_getitem_Some in Hin as [v Hv]. rewrite <- Hget' in Hv.
    destruct (decide (k ∈ dict_keys (dict_of_headers h))) as [|Hout];
      [assumption|].
    exfalso.
    rewrite dict_get_as_getitem, (Headers_getitem_None _ _ Hout) in Hv.
    discriminate.
Qed.

Lemma fold_left_snoc {A B} (f : A -> B -> A) (l : list B) (x : B) (a : A) :
  fold_left f (l ++ [x]) a = f (fold_left f l a) x.
Proof. rewrite fold_left_app. reflexivity. Qed.

(** X7: [dict(query_params)] never holds a parameter name twice, and holds
    under each name the value of the last pair of that name in the query
    string. *)
Theorem dict_of_query_params_last_wins (q : QueryParams) :
  NoDup (dict_keys (dict_of_query_params q)) /\
  forall k, dict_get (dict_of_query_params q) k
            = Headers_getitem (List.rev q) k.
Proof.
  unfold dict_of_query_params.
  induction q as [|[k0 v0] q IH] using rev_ind.
  - split; [constructor|reflexivity].
  - destruct IH as [Hnd Hget]. rewrite fold_left_snoc. split.
    + apply dict_set_NoDup, Hnd.
    + intros k. rewrite dict_get_set, rev_unit. cbn [Headers_getitem].
      destruct (decide (k0 = k)); [reflexivity|apply Hget].
Qed.

(** ** What the success path hands on *)



(** X9: in every run in which the request body could be read, the handler
    is called exactly once, before anything else the middleware does to the
    outside, whether it then raises, returns a response that drains or
    returns one whose stream fails.  The request it is given has the
    method, URL, headers and query parameters of the incoming request, and
    [receive] replaying the body that was read. *)
Theorem handler_called_once
        (custom_logger custom_error_logger : Logger)
        (request : Request.t) (call_next : Request.t -> Callback Upstream.t)
        (w : World) (b : bytes) (r1 : Request.t) :
  Request.body request = (Ok b, r1) ->
  let out := middleware_logger custom_logger custom_error_logger
                               request call_next w in
  exists given rest,
    new_events w out = HandlerCalled given :: rest /\
    handler_calls (new_events w out) = 1%nat /\
    Request.method given = Request.method request /\
    Request.url given = Request.url request /\
    Request.headers given = Request.headers request /\
    Request.query_params given = Request.query_params request /\
    Request._receive given = replay b.
Proof.
  intros Hbody out.
  destruct (Request_body_fields _ _ _ Hbody) as (Hm & Hu & Hh & Hq).
  exists (set_body r1 b).
  assert (Hshape : exists rest,
             new_events w out = HandlerCalled (set_body r1 b) :: rest
             /\ handler_calls (HandlerCalled (set_body r1 b) :: rest) = 1%nat).
  { subst out.
    destruct (call_next (set_body r1 b) (env w)) as [[up|exc] e1] eqn:Hcall.
    - destruct (failure (Upstream.body_iterator up)) as [e|] eqn:Hfail.
      + rewrite (middleware_logger_stream_fails _ _ _ _ _ _ _ Hbody _ _ _ Hcall Hfail).
        rewrite new_events_app. eexists. split; reflexivity.
      + rewrite (middleware_logger_returns _ _ _ _ _ _ _ Hbody _ _ Hcall Hfail).
        cbn zeta. rewrite new_events_app. eexists. split; reflexivity.
    - rewrite (middleware_logger_raises _ _ _ _ _ _ _ Hbody _ _ Hcall).
      cbn zeta. rewrite new_events_app. eexists. split; reflexivity. }
  destruct Hshape as (rest & Hnew & Hcount). exists rest.
  rewrite Hnew. repeat apply conj; try assumption; reflexivity.
Qed.

Lemma handler_called_once_witness :
  Request.body Sample.request
  = (Ok Sample.request_body, snd (Request.body Sample.request)) /\
  handler_calls
    (new_events Sample.w0
       (middleware_logger default_logger default_error_logger
                          Sample.request Sample.handler_broken Sample.w0))
  = 1%nat.
Proof.
  split; [reflexivity|].
  destruct (handler_called_once
              default_logger default_error_logger
              Sample.request Sample.handler_broken Sample.w0
              Sample.request_body (snd (Request.body Sample.request)) eq_refl)
    as (given & rest & _ & Hcount & _).
  exact Hcount.
Defined.

(** ** More on [parse_body] *)

Lemma octets_inj (b b' : bytes) : octets b = octets b' -> b = b'.
Proof.
  revert b'. induction b as [|c b IH]; intros [|c' b']; cbn;
    try discriminate; [reflexivity|].
  intros [= Hc Hb]. f_equal; [|apply IH, Hb].
  apply (f_equal Byte.of_N) in Hc. rewrite !Byte.of_to_N in Hc.
  congruence.
Qed.

(** X10: [parse_body] loses nothing: byte sequences that differ give
    values that differ, so the logged body determines the bytes that were
    sent. *)
Theorem parse_body_injective {S : Type} (b b' : bytes) (st : S) :
  fst (parse_body b st) = fst (parse_body b' st) -> b = b'.
Proof.
  rewrite !parse_body_run. cbn [fst]. unfold decoded.
  destruct (Utf8.decode (octets b)) as [s|] eqn:E;
    destruct (Utf8.decode (octets b')) as [s'|] eqn:E';
    intros [= H]; try assumption.
  subst s'. apply Utf8Facts.decode_sound in E as [_ E], E' as [_ E'].
  apply octets_inj. congruence.
Qed.

Lemma parse_body_injective_witness :
  fst (parse_body Sample.request_body tt)
  = fst (parse_body (blit "abcdefghijklmnopqrstuvwxyz") tt) /\
  Sample.request_body = blit "abcdefghijklmnopqrstuvwxyz".
Proof.
  split; [reflexivity|].
  exact (parse_body_injective
           Sample.request_body (blit "abcdefghijklmnopqrstuvwxyz") tt eq_refl).
Defined.

Lemma decode_ascii (l : list N) :
  Forall (fun c => c < 128) l -> Utf8.decode l = Some l.
Proof.
  induction 1 as [|c l Hc Hl IH]; [reflexivity|].
  cbn [Utf8.decode]. destruct (N.ltb_spec c 128); [|lia].
  rewrite IH. reflexivity.
Qed.

(** X11: a body made of bytes below 128 only, the empty body included, is
    parsed to the text with those very character codes, one character per
    byte. *)
Theorem parse_body_ascii {S : Type} (b : bytes) (st : S) :
  ascii_only b -> parse_body b st = (Ok (VStr (octets b)), st).
Proof.
  intros Hb. rewrite parse_body_run. unfold decoded.
  rewrite (decode_ascii _ Hb). reflexivity.
Qed.

Lemma parse_body_ascii_witness :
  ascii_only Sample.request_body /\
  parse_body Sample.request_body tt
  = (Ok (VStr (lit "abcdefghijklmnopqrstuvwxyz")), tt).
Proof.
  assert (H : ascii_only Sample.request_body)
    by (unfold ascii_only; vm_compute; repeat constructor).
  split; [exact H|]. exact (parse_body_ascii Sample.request_body tt H).
Defined.

(** X12: the decoder behind [parse_body] and the UTF-8 encoding are
    inverse to each other: a text of scalar values decodes from its
    encoding, and whatever the decoder accepts is the encoding of the text
    it returns, which holds no surrogate and nothing above U+10FFFF. *)
Theorem utf8_round_trip :
  (forall s, Forall Utf8.scalar s -> Utf8.decode (Utf8.encode s) = Some s) /\
  (forall l s, Utf8.decode l = Some s ->
               Utf8.encode s = l /\ Forall Utf8.scalar s).
Proof.
  split.
  - apply Utf8Facts.decode_encode.
  - intros l s H. apply Utf8Facts.decode_sound in H. tauto.
Qed.

(** ** The line for a bytes value *)

Lemma hex_digit_printable (n : N) : n < 16 -> printable (hex_digit n).
Proof.
  unfold printable, hex_digit. intros H.
  destruct (N.ltb_spec n 10); lia.
Qed.

Lemma repr_byte_shape (q c : N) :
  printable q -> c <= 255 ->
  Forall printable (repr_byte q c) /\ (length (repr_byte q c) <= 4)%nat.
Proof.
  unfold printable. intros Hq Hc. unfold repr_byte.
  destruct ((c =? q) || (c =? 92)) eqn:E1.
  { apply orb_true_iff in E1 as [E|E]; apply N.eqb_eq in E; subst;
      (split; [repeat constructor; unfold printable; lia|cbn; lia]). }
  destruct (N.eqb_spec c 9);
    [split; [repeat constructor; unfold printable; cbn; lia|cbn; lia]|].
  destruct (N.eqb_spec c 10);
    [split; [repeat constructor; unfold printable; cbn; lia|cbn; lia]|].
  destruct (N.eqb_spec c 13);
    [split; [repeat constructor; unfold printable; cbn; lia|cbn; lia]|].
  destruct ((c <? 32) || (127 <=? c)) eqn:E2.
  - change (lit "\x") with [92; 120]. cbn [app length]. split; [|lia].
    constructor; [unfold printable; lia|].
    constructor; [unfold printable; lia|].
    constructor;
      [apply hex_digit_printable, N.Div0.div_lt_upper_bound; lia|].
    constructor; [|constructor].
    apply hex_digit_printable, N.mod_lt. discriminate.
  - apply orb_false_iff in E2 as [E3 E4].
    apply N.ltb_ge in E3. apply N.leb_gt in E4.
    split; [repeat constructor; unfold printable; lia|cbn; lia].
Qed.

Lemma flat_map_repr_shape (q : N) (cs : list N) :
  printable q -> Forall (fun c => c <= 255) cs ->
  Forall printable (flat_map (repr_byte q) cs) /\
  (length (flat_map (repr_byte q) cs) <= 4 * length cs)%nat.
Proof.
  intros Hq. induction 1 as [|c cs Hc Hcs [IHp IHl]]; cbn [flat_map length].
  - split; [constructor|lia].
  - destruct (repr_byte_shape q c Hq Hc) as [Hp Hl]. split.
    + apply Forall_app. split; assumption.
    + rewrite length_app. lia.
Qed.

Lemma octets_bounded (b : bytes) : Forall (fun c => c <= 255) (octets b).
Proof.
  unfold octets. induction b as [|c b IH]; cbn; constructor;
    [apply Byte.to_N_bounded|exact IH].
Qed.

Lemma bytes_repr_shape (b : bytes) :
  Forall printable (bytes_repr b) /\
  (length (bytes_repr b) <= 4 * length b + 3)%nat.
Proof.
  unfold bytes_repr. cbv zeta.
  match goal with
  | |- context [if ?c then 34 else 39] =>
    assert (Hq : printable (if c then 34 else 39))
      by (destruct c; unfold printable; lia);
    revert Hq; generalize (if c then 34 else 39)
  end.
  intros q Hq.
  destruct (flat_map_repr_shape q (octets b) Hq (octets_bounded b)) as [Hp Hl].
  change (lit "b") with [98]. split.
  - constructor; [unfold printable; lia|]. constructor; [exact Hq|].
    apply Forall_app. split; [exact Hp|]. constructor; [exact Hq|constructor].
  - cbn [app length]. rewrite length_app. cbn [length].
    unfold octets in *. rewrite length_map in Hl. lia.
Qed.

(** X13: whatever bytes a field holds, the default logger's line for it
    shows, between the double quotes, printable ASCII characters only and
    at most 83 of them. *)
Theorem bytes_line_is_printable_and_short (k : str) (b : bytes) :
  exists shown,
    produced (default_logger [(k, VBytes b)])
    = [(DEBUG, k ++ lit ": " ++ dquote ++ shown ++ dquote)] /\
    Forall printable shown /\
    (length shown <= 83)%nat.
Proof.
  exists (bytes_repr (slice_to 20 b)). split; [apply produced_field_default|].
  destruct (bytes_repr_shape (slice_to 20 b)) as [Hp Hl].
  split; [exact Hp|]. unfold slice_to in *. rewrite length_firstn in Hl. lia.
Qed.

(** ** Levels of the default success logger *)

Lemma field_lines_below_warning f :
  Forall (fun r => (level_value (fst r) < level_value WARNING)%Z)
         (field_lines INFO DEBUG f).
Proof.
  destruct f as [k v]. destruct v as [|z|s|b|d]; cbn [field_lines];
    try (repeat constructor).
  induction d as [|[kk vv] d IH]; constructor; [reflexivity|exact IH].
Qed.

(** X14: the default success logger never raises, never touches a
    threshold and writes below WARNING only, so a sink left at
    WARNING shows none of its lines. *)
Theorem default_logger_stays_below_warning (kw : kwargs) :
  exists ls,
    emits (default_logger kw) ls /\
    Forall (fun r => (level_value (fst r) < level_value WARNING)%Z) ls.
Proof.
  exists (flat_map (field_lines INFO DEBUG) kw). split.
  - apply default_logger_emits.
  - apply flat_map_Forall, field_lines_below_warning.
Qed.

(** ** More on [set_body] *)


